(** * Homepage navigation updater: a shallow embedding of
      [scripts/update_homepage.py] and the properties of its three stages
      (discovery, rendering, splicing).

    Python strings are sequences of Unicode code points: a character is a
    code point in [N], a string a list of them.  The standard-library
    functions the script calls ([str.splitlines], [str.strip], [str.join],
    [html.escape], [textwrap.dedent], [re.search] on the marker pattern) are
    written out after their CPython behaviour; [json.loads] and the Unicode
    case tables behind [str.title] are parameters of the development.

    Paths are POSIX paths.  A file is its decoded text: files that cannot
    be read or decoded are outside the model.  Command-line parsing is left
    to [argparse]: [main] starts from the parsed arguments. *)

From Stdlib Require Import Ascii String.
From Stdlib Require Import Bool NArith ZArith Lia List.
From Stdlib Require Import Sorting.Sorted Sorting.Permutation.
From Stdlib Require Import Floats.SpecFloat.
Import ListNotations.
Local Open Scope N_scope.
Local Open Scope list_scope.
Set Warnings "-register-all".

(* ================================================================== *)
(** ** Characters and strings *)

Definition char := N.
Definition str := list char.

(** Code points of an ASCII literal. *)
Fixpoint codes (s : string) : str :=
  match s with
  | EmptyString => []
  | String a s' => N_of_ascii a :: codes s'
  end.

Definition nl : char := 10.
Definition cr : char := 13.
Definition dq : char := 34.

Fixpoint str_eqb (a b : str) : bool :=
  match a, b with
  | [], [] => true
  | x :: a', y :: b' => (x =? y) && str_eqb a' b'
  | _, _ => false
  end.

(** Python compares strings by code point, lexicographically. *)
Fixpoint str_leb (a b : str) : bool :=
  match a, b with
  | [], _ => true
  | _ :: _, [] => false
  | x :: a', y :: b' => (x <? y) || ((x =? y) && str_leb a' b')
  end.

Definition nonempty {A} (l : list A) : bool :=
  match l with [] => false | _ :: _ => true end.

Module Py.

(** [str.isspace] on one character (CPython's [_PyUnicode_IsWhitespace]). *)
Definition isspace (c : char) : bool :=
  ((9 <=? c) && (c <=? 13)) || ((28 <=? c) && (c <=? 32))
  || (c =? 133) || (c =? 160) || (c =? 5760)
  || ((8192 <=? c) && (c <=? 8202))
  || (c =? 8232) || (c =? 8233) || (c =? 8239) || (c =? 8287)
  || (c =? 12288).

(** Line boundaries of [str.splitlines] (CPython's [_PyUnicode_IsLinebreak]). *)
Definition is_linebreak (c : char) : bool :=
  ((10 <=? c) && (c <=? 13)) || ((28 <=? c) && (c <=? 30))
  || (c =? 133) || (c =? 8232) || (c =? 8233).

(** [sep.join(ls)]. *)
Fixpoint join (sep : str) (ls : list str) : str :=
  match ls with
  | [] => []
  | l :: ls' =>
      match ls' with
      | [] => l
      | _ :: _ => l ++ sep ++ join sep ls'
      end
  end.

(** [s.splitlines()]: lines without their terminators; [\r\n] is one
    terminator; a terminator at the very end opens no further line. *)
Fixpoint splitlines (s : str) : list str :=
  match s with
  | [] => []
  | c :: s' =>
      if is_linebreak c then
        [] :: match s' with
              | d :: s'' =>
                  if (c =? cr) && (d =? nl) then splitlines s'' else splitlines s'
              | [] => []
              end
      else
        match splitlines s' with
        | [] => [[c]]
        | l :: ls => (c :: l) :: ls
        end
  end.

(** [s.split(sep)] for a one-character separator: never empty. *)
Fixpoint split (sep : char) (s : str) : list str :=
  match s with
  | [] => [[]]
  | c :: s' =>
      if c =? sep then [] :: split sep s'
      else
        match split sep s' with
        | [] => [[c]]
        | l :: ls => (c :: l) :: ls
        end
  end.

(** [s.replace(old, new)] for a one-character [old]. *)
Fixpoint replace (old : char) (new : str) (s : str) : str :=
  match s with
  | [] => []
  | c :: s' => (if c =? old then new else [c]) ++ replace old new s'
  end.

Fixpoint lstrip (s : str) : str :=
  match s with
  | [] => []
  | c :: s' => if isspace c then lstrip s' else s
  end.

Fixpoint rstrip (s : str) : str :=
  match s with
  | [] => []
  | c :: s' =>
      match rstrip s' with
      | [] => if isspace c then [] else [c]
      | r => c :: r
      end
  end.

(** [s.strip()]. *)
Definition strip (s : str) : str := lstrip (rstrip s).

(** [s.startswith(p)], and the remainder after [p] when it does. *)
Fixpoint strip_prefix (p s : str) : option str :=
  match p, s with
  | [], _ => Some s
  | x :: p', y :: s' => if x =? y then strip_prefix p' s' else None
  | _ :: _, [] => None
  end.

Definition startswith (s p : str) : bool :=
  match strip_prefix p s with Some _ => true | None => false end.

(** Truth value of a string: [if s]. *)
Definition truthy_str (s : str) : bool := nonempty s.

End Py.

(* ================================================================== *)
(** ** [html.escape(s)] (with [quote=True], the default) *)

Module Html.

Definition escape (s : str) : str :=
  let s := Py.replace 38 (codes "&amp;") s in
  let s := Py.replace 60 (codes "&lt;") s in
  let s := Py.replace 62 (codes "&gt;") s in
  let s := Py.replace dq (codes "&quot;") s in
  Py.replace 39 (codes "&#x27;") s.

(** The character reference standing for one character of the input. *)
Definition entity (c : char) : str :=
  if c =? 38 then codes "&amp;"
  else if c =? 60 then codes "&lt;"
  else if c =? 62 then codes "&gt;"
  else if c =? dq then codes "&quot;"
  else if c =? 39 then codes "&#x27;"
  else [c].

Definition entities (s : str) : str := flat_map entity s.

End Html.

(* ================================================================== *)
(** ** [textwrap.dedent]

    The regular-expression implementation (CPython up to 3.13): lines are
    delimited by [\n] only, lines of spaces and tabs are emptied, the margin
    is the longest run of spaces and tabs common to the remaining lines. *)

Module Textwrap.

Definition is_blank (c : char) : bool := (c =? 32) || (c =? 9).

Fixpoint take_blanks (l : str) : str :=
  match l with
  | c :: l' => if is_blank c then c :: take_blanks l' else []
  | [] => []
  end.

(** [_whitespace_only_re.sub('', text)], line by line. *)
Definition clear_blank_line (l : str) : str :=
  if forallb is_blank l then [] else l.

(** [_leading_whitespace_re.findall(text)], line by line. *)
Definition leading_whitespace (lines : list str) : list str :=
  flat_map (fun l => if forallb is_blank l then [] else [take_blanks l]) lines.

Fixpoint common_prefix (a b : str) : str :=
  match a, b with
  | x :: a', y :: b' => if x =? y then x :: common_prefix a' b' else []
  | _, _ => []
  end.

Definition margin_step (margin : option str) (indent : str) : option str :=
  match margin with
  | None => Some indent
  | Some m =>
      if Py.startswith indent m then Some m
      else if Py.startswith m indent then Some indent
      else Some (common_prefix m indent)
  end.

Definition remove_margin (margin l : str) : str :=
  match Py.strip_prefix margin l with
  | Some r => r
  | None => l
  end.

Definition dedent (text : str) : str :=
  let lines := map clear_blank_line (Py.split nl text) in
  match fold_left margin_step (leading_whitespace lines) None with
  | Some (c :: m) => Py.join [nl] (map (remove_margin (c :: m)) lines)
  | _ => Py.join [nl] lines
  end.

End Textwrap.

(* ================================================================== *)
(** ** Outcomes of a Python computation *)

Inductive exn : Type :=
| AttributeError
| FileNotFoundError
| IsADirectoryError
| NotADirectoryError.

(** A call returns, or raises [SystemExit(msg)] (the interpreter prints
    [msg] and exits with status 1), or raises another exception. *)
Inductive outcome (A : Type) : Type :=
| Return (a : A)
| Exit (msg : str)
| Raise (e : exn).
Arguments Return {A} a.
Arguments Exit {A} msg.
Arguments Raise {A} e.

Definition bind {A B} (m : outcome A) (k : A -> outcome B) : outcome B :=
  match m with
  | Return a => k a
  | Exit msg => Exit msg
  | Raise e => Raise e
  end.

Notation "x <- m ;; k" := (bind m (fun x => k))
  (at level 61, m at next level, right associativity).

Definition fatal {A} (o : outcome A) : bool :=
  match o with Return _ => false | _ => true end.

(* ================================================================== *)
(** ** JSON values, as [json.loads] builds them *)

Inductive json : Type :=
| JNull
| JBool (b : bool)
| JInt (z : Z)
| JFloat (f : spec_float)
| JStr (s : str)
| JArr (items : list json)
| JObj (members : list (str * json)).

(** A [dict] is kept as an association list with one binding per key. *)
Fixpoint dict_get (key : str) (members : list (str * json)) : option json :=
  match members with
  | [] => None
  | (k, v) :: rest => if str_eqb k key then Some v else dict_get key rest
  end.

(** Truth value of a Python object. *)
Definition truthy (v : json) : bool :=
  match v with
  | JNull => false
  | JBool b => b
  | JInt z => negb (Z.eqb z 0)
  | JFloat (S754_zero _) => false
  | JFloat _ => true
  | JStr s => nonempty s
  | JArr items => nonempty items
  | JObj members => nonempty members
  end.

(** [a or b]. *)
Definition py_or (a b : json) : json := if truthy a then a else b.

Inductive json_result : Type :=
| Decoded (v : json)
| JSONDecodeError (detail : str).

(** What the script takes from the Python runtime without defining it:
    the JSON decoder and the Unicode case tables used by [str.title]. *)
Class Runtime : Type := {
  json_loads : str -> json_result;
  is_cased : char -> bool;
  to_lower : char -> str;
  to_title : char -> str
}.

(* ================================================================== *)
(** ** Paths and the file system *)

(** A [pathlib] path: its anchor ([/] or nothing) and its components. *)
Record Path : Type := mkPath { anchor : str; parts : list str }.

Definition as_posix (p : Path) : str :=
  match parts p with
  | [] => if nonempty (anchor p) then anchor p else codes "."
  | _ :: _ => anchor p ++ Py.join (codes "/") (parts p)
  end.

(** [p / name] for a single component. *)
Definition child (p : Path) (name : str) : Path :=
  mkPath (anchor p) (parts p ++ [name]).

Definition path_eqb (p q : Path) : bool :=
  str_eqb (anchor p) (anchor q)
  && (fix eq (a b : list str) : bool :=
        match a, b with
        | [], [] => true
        | x :: a', y :: b' => str_eqb x y && eq a' b'
        | _, _ => false
        end) (parts p) (parts q).

(** What a path leads to: a text file or a directory listing (in the
    order the operating system reports the entries). *)
Inductive node : Type :=
| File (text : str)
| Dir (entries : list (str * node)).

Definition FileSystem := Path -> option node.

Fixpoint lookup (name : str) (entries : list (str * node)) : option node :=
  match entries with
  | [] => None
  | (n, x) :: rest => if str_eqb n name then Some x else lookup name rest
  end.

(** [path.read_text()] on what the path leads to. *)
Definition read_text (target : option node) : outcome str :=
  match target with
  | Some (File text) => Return text
  | Some (Dir _) => Raise IsADirectoryError
  | None => Raise FileNotFoundError
  end.

(** [path.write_text(text)]: afterwards the path leads to that text. *)
Definition write_text (fs : FileSystem) (p : Path) (text : str) : FileSystem :=
  fun q => if path_eqb q p then Some (File text) else fs q.

(** [sorted(...)]: a stable sort; siblings compare by their names. *)
Fixpoint insert_entry (e : str * node) (l : list (str * node)) : list (str * node) :=
  match l with
  | [] => [e]
  | x :: l' => if str_leb (fst e) (fst x) then e :: l else x :: insert_entry e l'
  end.

Definition sorted (l : list (str * node)) : list (str * node) :=
  fold_right insert_entry [] l.

(* ================================================================== *)
(** ** The marker pattern

    A named group [indent] of spaces and tabs (greedy), the start marker,
    a lazy group of any characters (with [re.DOTALL], newlines too), the end
    marker: matched the way the backtracking engine does. *)

Definition START_MARKER : str := codes "<!-- PROJECT_NAV_START -->".
Definition END_MARKER : str := codes "<!-- PROJECT_NAV_END -->".

Module Re.

(** The lazy group followed by [pat]: the shortest text after which
    [pat] matches. *)
Fixpoint lazy_until (pat s : str) : option (str * str) :=
  match Py.strip_prefix pat s with
  | Some rest => Some ([], rest)
  | None =>
      match s with
      | [] => None
      | c :: s' =>
          match lazy_until pat s' with
          | Some (g, rest) => Some (c :: g, rest)
          | None => None
          end
      end
  end.

(** Start marker, lazy group, end marker at the head of [s]. *)
Definition markers_here (s : str) : option (str * str) :=
  match Py.strip_prefix START_MARKER s with
  | Some r => lazy_until END_MARKER r
  | None => None
  end.

(** The whole pattern at the head of [s]: the greedy [indent] group takes
    a blank when the rest then matches, and gives it back otherwise.
    Result: the [indent] group, the second group, the text after the
    match. *)
Fixpoint match_here (s : str) : option (str * str * str) :=
  let without :=
    match markers_here s with
    | Some (g, rest) => Some ([], g, rest)
    | None => None
    end in
  match s with
  | c :: s' =>
      if Textwrap.is_blank c then
        match match_here s' with
        | Some (ind, g, rest) => Some (c :: ind, g, rest)
        | None => without
        end
      else without
  | [] => without
  end.

Record found : Type := mkFound {
  before : str;        (* content[:start] *)
  indent : str;        (* match.group("indent") *)
  inner : str;         (* the second group *)
  after : str          (* content[end:] *)
}.

(** [pattern.search(content)]: the leftmost position where it matches. *)
Fixpoint search (content : str) : option found :=
  match match_here content with
  | Some (ind, g, rest) => Some (mkFound [] ind g rest)
  | None =>
      match content with
      | [] => None
      | c :: s' =>
          match search s' with
          | Some m => Some (mkFound (c :: before m) (indent m) (inner m) (after m))
          | None => None
          end
      end
  end.

End Re.

(* ================================================================== *)
(** ** The script *)

(** [@dataclass class Project]: nothing checks the annotations at run
    time, so a field holds whatever object the metadata gave. *)
Record Project : Type := mkProject {
  name : json;
  url : json;
  description : json          (* [None] is [JNull] *)
}.

(** A project whose fields have the annotated types. *)
Definition typed_project (n u : str) (d : option str) : Project :=
  mkProject (JStr n) (JStr u) (match d with Some s => JStr s | None => JNull end).

Record Args : Type := mkArgs { index : Path; projects : Path; dry_run : bool }.

(** What a run leaves behind: how [main] ended, what it printed, and the
    files it wrote. *)
Record Run : Type := mkRun {
  status : outcome Z;
  stdout : list str;
  written : list (Path * str)
}.

Definition spaces (n : nat) : str := repeat 32 n.

(** [escape(v)]: any object but a string has no [replace] method. *)
Definition escape_value (v : json) : outcome str :=
  match v with
  | JStr s => Return (Html.escape s)
  | _ => Raise AttributeError
  end.

(** The f-string of [nav_item], before [dedent] and [strip]. *)
Definition nav_item_text (url_e title_attribute name_e description_html : str) : str :=
  [nl] ++ spaces 12 ++ codes "<li>" ++ [nl]
  ++ spaces 14 ++ codes "<a href=" ++ [dq] ++ url_e ++ [dq] ++ title_attribute
     ++ codes ">" ++ name_e ++ codes "</a>" ++ [nl]
  ++ spaces 14 ++ description_html ++ [nl]
  ++ spaces 12 ++ codes "</li>" ++ [nl]
  ++ spaces 12.

Definition nav_item (p : Project) : outcome str :=
  title_attr <- (if truthy (description p) then escape_value (description p)
                 else Return []) ;;
  description_html <-
    (if truthy (description p) then
       e <- escape_value (description p) ;;
       Return (codes "<span class=" ++ [dq] ++ codes "description" ++ [dq] ++ codes ">"
               ++ e ++ codes "</span>")
     else Return []) ;;
  let title_attribute :=
    if Py.truthy_str title_attr
    then codes " title=" ++ [dq] ++ title_attr ++ [dq]
    else [] in
  url_e <- escape_value (url p) ;;
  name_e <- escape_value (name p) ;;
  Return (Py.strip (Textwrap.dedent
            (nav_item_text url_e title_attribute name_e description_html))).

Definition indent_block (text : str) (n : nat) : str :=
  let pad := spaces n in
  Py.join [nl] (map (fun line => if nonempty line then pad ++ line else pad)
                    (Py.splitlines text)).

Definition NO_PROJECTS_TEXT : str :=
  [nl] ++ spaces 12
  ++ codes "<p>No classified projects are currently published. Add a project and rerun the updater.</p>"
  ++ [nl] ++ spaces 12.

Definition LIST_OPEN : str :=
  codes "<ul class=" ++ [dq] ++ codes "classified-projects" ++ [dq] ++ codes ">".
Definition LIST_CLOSE : str := codes "</ul>".

(** The generator expression consumed by [join]: items are rendered in
    order and the first exception ends the rendering. *)
Fixpoint render_items (ps : list Project) : outcome (list str) :=
  match ps with
  | [] => Return []
  | p :: ps' =>
      item <- nav_item p ;;
      rest <- render_items ps' ;;
      Return (indent_block item 2 :: rest)
  end.

Definition build_navigation_markup (ps : list Project) : outcome str :=
  match ps with
  | [] => Return (Py.strip (Textwrap.dedent NO_PROJECTS_TEXT))
  | _ :: _ =>
      items <- render_items ps ;;
      let nav_items := Py.join [nl] items in
      let lines := [LIST_OPEN] in
      let lines := if Py.truthy_str nav_items
                   then lines ++ Py.splitlines nav_items else lines in
      let lines := lines ++ [LIST_CLOSE] in
      Return (Py.join [nl] lines)
  end.

Definition MARKERS_NOT_FOUND : str :=
  codes "Could not find the classified project markers in the index file.".

(** The text that takes the place of the match. *)
Definition replacement (indent markup : str) : str :=
  let indented_markup :=
    Py.join [nl] (map (fun line => if nonempty line then indent ++ line else line)
                      (Py.splitlines markup)) in
  indent ++ START_MARKER ++ [nl] ++ indented_markup ++ [nl] ++ indent ++ END_MARKER.

(** The string transformation of [update_homepage], on the text read. *)
Definition splice (content markup : str) : outcome str :=
  match Re.search content with
  | None => Exit MARKERS_NOT_FOUND
  | Some m => Return (Re.before m ++ replacement (Re.indent m) markup ++ Re.after m)
  end.

Definition update_homepage (fs : FileSystem) (index_path : Path) (markup : str)
  : outcome str :=
  content <- read_text (fs index_path) ;;
  splice content markup.

Section Script.

Context {rt : Runtime}.

(** [s.title()]. *)
Fixpoint title_from (previous_is_cased : bool) (s : str) : str :=
  match s with
  | [] => []
  | c :: s' =>
      (if previous_is_cased then to_lower c else to_title c)
      ++ title_from (is_cased c) s'
  end.

Definition title (s : str) : str := title_from false s.

(** [project_dir.name]. *)
Definition path_name (p : Path) : str := last (parts p) [].

Definition METADATA_FILE : str := codes "project.json".

Definition invalid_json (metadata_path : Path) (detail : str) : str :=
  codes "Invalid JSON in " ++ as_posix metadata_path ++ codes ": " ++ detail.

(** [metadata.get(key)]. *)
Definition get (metadata : list (str * json)) (key : str) : json :=
  match dict_get key metadata with
  | Some v => v
  | None => JNull
  end.

Definition humanized (project_dir : Path) : str :=
  title (Py.replace 45 (codes " ") (path_name project_dir)).

Definition project_of (project_dir : Path) (metadata : list (str * json)) : Project :=
  mkProject
    (py_or (get metadata (codes "name")) (JStr (humanized project_dir)))
    (py_or (get metadata (codes "url")) (JStr (as_posix project_dir ++ codes "/")))
    (get metadata (codes "description")).

(** One turn of the loop over the sorted entries: [None] where the
    source says [continue]. *)
Definition scan_entry (projects_root : Path) (entry : str * node)
  : outcome (option Project) :=
  let project_dir := child projects_root (fst entry) in
  match snd entry with
  | File _ => Return None
  | Dir listing =>
      match lookup METADATA_FILE listing with
      | None => Return None
      | Some target =>
          text <- read_text (Some target) ;;
          match json_loads text with
          | JSONDecodeError detail =>
              Exit (invalid_json (child project_dir METADATA_FILE) detail)
          | Decoded (JObj metadata) => Return (Some (project_of project_dir metadata))
          | Decoded _ => Raise AttributeError
          end
      end
  end.

Fixpoint discover_loop (projects_root : Path) (entries : list (str * node))
         (found : list Project) : outcome (list Project) :=
  match entries with
  | [] => Return found
  | entry :: rest =>
      r <- scan_entry projects_root entry ;;
      match r with
      | Some p => discover_loop projects_root rest (found ++ [p])
      | None => discover_loop projects_root rest found
      end
  end.

Definition discover_projects (fs : FileSystem) (projects_root : Path)
  : outcome (list Project) :=
  match fs projects_root with
  | None => Return []
  | Some (File _) => Raise NotADirectoryError
  | Some (Dir entries) => discover_loop projects_root (sorted entries) []
  end.

Definition main (fs : FileSystem) (args : Args) : Run :=
  match discover_projects fs (projects args) with
  | Return ps =>
      match build_navigation_markup ps with
      | Return markup =>
          if dry_run args then mkRun (Return 0%Z) [markup] []
          else
            match update_homepage fs (index args) markup with
            | Return updated_content =>
                mkRun (Return 0%Z) [] [(index args, updated_content)]
            | Exit msg => mkRun (Exit msg) [] []
            | Raise e => mkRun (Raise e) [] []
            end
      | Exit msg => mkRun (Exit msg) [] []
      | Raise e => mkRun (Raise e) [] []
      end
  | Exit msg => mkRun (Exit msg) [] []
  | Raise e => mkRun (Raise e) [] []
  end.

End Script.

(* ================================================================== *)
(** ** A runtime to run the script on

    A decoder for a fragment of JSON (objects, arrays, strings with the
    two-character escapes, integers, [true], [false], [null]) and the ASCII
    part of the case tables.  The theorems hold for every runtime; this one
    serves the examples. *)

Module Sample.

Definition is_json_ws (c : char) : bool :=
  (c =? 32) || (c =? 9) || (c =? 10) || (c =? 13).

Fixpoint skip_ws (s : str) : str :=
  match s with
  | c :: s' => if is_json_ws c then skip_ws s' else s
  | [] => []
  end.

Definition unescape (c : char) : option char :=
  if c =? 34 then Some 34 else if c =? 92 then Some 92
  else if c =? 47 then Some 47 else if c =? 98 then Some 8
  else if c =? 102 then Some 12 else if c =? 110 then Some 10
  else if c =? 114 then Some 13 else if c =? 116 then Some 9
  else None.

(** The characters of a string literal, after its opening quote. *)
Fixpoint string_body (s : str) : option (str * str) :=
  match s with
  | [] => None
  | c :: s' =>
      if c =? 34 then Some ([], s')
      else if c =? 92 then
        match s' with
        | e :: s'' =>
            match unescape e, string_body s'' with
            | Some x, Some (r, rest) => Some (x :: r, rest)
            | _, _ => None
            end
        | [] => None
        end
      else if c <? 32 then None
      else
        match string_body s' with
        | Some (r, rest) => Some (c :: r, rest)
        | None => None
        end
  end.

Definition is_digit (c : char) : bool := (48 <=? c) && (c <=? 57).

Fixpoint digits (acc : Z) (s : str) : Z * str :=
  match s with
  | c :: s' =>
      if is_digit c then digits (10 * acc + Z.of_N (c - 48))%Z s' else (acc, s)
  | [] => (acc, [])
  end.

(** An integer literal: no leading zero, no fraction, no exponent. *)
Definition integer (s : str) : option (Z * str) :=
  match s with
  | c :: s' =>
      if c =? 48 then Some (0%Z, s')
      else if is_digit c then Some (digits 0 s)
      else None
  | [] => None
  end.

(** [dict[key] = v]: a later binding of a key replaces the earlier. *)
Fixpoint dict_set (key : str) (v : json) (members : list (str * json))
  : list (str * json) :=
  match members with
  | [] => [(key, v)]
  | (k, x) :: rest =>
      if str_eqb k key then (k, v) :: rest else (k, x) :: dict_set key v rest
  end.

Fixpoint elements (value : str -> option (json * str)) (n : nat) (s : str)
  : option (list json * str) :=
  match n with
  | O => None
  | S n' =>
      match value s with
      | Some (v, r) =>
          match skip_ws r with
          | c :: r' =>
              if c =? 44 then
                match elements value n' r' with
                | Some (vs, rest) => Some (v :: vs, rest)
                | None => None
                end
              else if c =? 93 then Some ([v], r')
              else None
          | [] => None
          end
      | None => None
      end
  end.

Fixpoint members (value : str -> option (json * str)) (n : nat) (s : str)
         (acc : list (str * json)) : option (list (str * json) * str) :=
  match n with
  | O => None
  | S n' =>
      match skip_ws s with
      | q :: s1 =>
          if q =? 34 then
            match string_body s1 with
            | Some (key, s2) =>
                match skip_ws s2 with
                | colon :: s3 =>
                    if colon =? 58 then
                      match value s3 with
                      | Some (v, s4) =>
                          match skip_ws s4 with
                          | c :: s5 =>
                              if c =? 44 then members value n' s5 (dict_set key v acc)
                              else if c =? 125 then Some (dict_set key v acc, s5)
                              else None
                          | [] => None
                          end
                      | None => None
                      end
                    else None
                | [] => None
                end
            | None => None
            end
          else None
      | [] => None
      end
  end.

Fixpoint value (fuel : nat) (s : str) : option (json * str) :=
  match fuel with
  | O => None
  | S fuel' =>
      match skip_ws s with
      | [] => None
      | c :: r =>
          if c =? 34 then
            match string_body r with
            | Some (x, rest) => Some (JStr x, rest)
            | None => None
            end
          else if c =? 91 then
            match skip_ws r with
            | d :: r' =>
                if d =? 93 then Some (JArr [], r')
                else
                  match elements (value fuel') (S (length r)) r with
                  | Some (vs, rest) => Some (JArr vs, rest)
                  | None => None
                  end
            | [] => None
            end
          else if c =? 123 then
            match skip_ws r with
            | d :: r' =>
                if d =? 125 then Some (JObj [], r')
                else
                  match members (value fuel') (S (length r)) r [] with
                  | Some (kv, rest) => Some (JObj kv, rest)
                  | None => None
                  end
            | [] => None
            end
          else if c =? 45 then
            match integer r with
            | Some (z, rest) => Some (JInt (- z), rest)
            | None => None
            end
          else if is_digit c then
            match integer (c :: r) with
            | Some (z, rest) => Some (JInt z, rest)
            | None => None
            end
          else
            match Py.strip_prefix (codes "null") (c :: r),
                  Py.strip_prefix (codes "true") (c :: r),
                  Py.strip_prefix (codes "false") (c :: r) with
            | Some rest, _, _ => Some (JNull, rest)
            | _, Some rest, _ => Some (JBool true, rest)
            | _, _, Some rest => Some (JBool false, rest)
            | _, _, _ => None
            end
      end
  end.

Definition loads (text : str) : json_result :=
  match value (S (length text)) text with
  | Some (v, rest) =>
      match skip_ws rest with
      | [] => Decoded v
      | _ :: _ => JSONDecodeError (codes "Extra data")
      end
  | None => JSONDecodeError (codes "Expecting value")
  end.

Definition is_upper (c : char) : bool := (65 <=? c) && (c <=? 90).
Definition is_lower (c : char) : bool := (97 <=? c) && (c <=? 122).

#[export] Instance runtime : Runtime := {|
  json_loads := loads;
  is_cased := fun c => is_upper c || is_lower c;
  to_lower := fun c => if is_upper c then [c + 32] else [c];
  to_title := fun c => if is_lower c then [c - 32] else [c]
|}.

Definition projects_root : Path := mkPath [] [codes "projects"].
Definition index_html : Path := mkPath [] [codes "index.html"].

(** A file system holding a projects directory and an index document. *)
Definition disk (listing : list (str * node)) (document : str) : FileSystem :=
  fun p =>
    if path_eqb p projects_root then Some (Dir listing)
    else if path_eqb p index_html then Some (File document)
    else None.

(** A project directory holding one metadata file. *)
Definition project_dir (dir_name : string) (metadata : str) : str * node :=
  (codes dir_name, Dir [(METADATA_FILE, File metadata)]).

Definition page (body : str) : str :=
  codes "<nav>" ++ [nl] ++ body ++ [nl] ++ codes "</nav>" ++ [nl].

Definition empty_page : str :=
  page (codes "  " ++ START_MARKER ++ [nl] ++ codes "  " ++ END_MARKER).

(** The start marker after other text on its line. *)
Definition inline_page : str :=
  [9] ++ codes "<nav> " ++ START_MARKER ++ END_MARKER ++ codes "</nav>".

Definition no_marker_page : str := page (codes "  <ul></ul>").

(** Three project directories, listed out of order, each with an empty
    metadata object. *)
Definition three_projects : list (str * node) :=
  [project_dir "c-proj" (codes "{}");
   project_dir "a-proj" (codes "{}");
   project_dir "b-proj" (codes "{}")].

(** A quoted string of a metadata file. *)
Definition quoted (s : string) : str := [dq] ++ codes s ++ [dq].

(** Metadata naming a project, its url and its description. *)
Definition demo_metadata : str :=
  codes "{" ++ quoted "name" ++ codes ": " ++ quoted "Demo" ++ codes ", "
  ++ quoted "url" ++ codes ": " ++ quoted "demo/" ++ codes ", "
  ++ quoted "description" ++ codes ": " ++ quoted "A sample" ++ codes "}".

(** Metadata whose [name] key is present and holds the empty string. *)
Definition empty_name : str :=
  codes "{" ++ [dq] ++ codes "name" ++ [dq] ++ codes ": " ++ [dq; dq] ++ codes "}".

(** A metadata file cut short. *)
Definition broken : str * node := project_dir "b" (codes "{").

(** A metadata file holding a JSON array. *)
Definition array : str * node := project_dir "a" (codes "[]").

Definition args (dry : bool) : Args := mkArgs index_html projects_root dry.

End Sample.

(* ================================================================== *)
(** ** Vocabulary of the properties *)

(** [s.split()]: the maximal runs of non-whitespace characters. *)
Fixpoint fields (s : str) : list str :=
  match s with
  | [] => [[]]
  | c :: s' =>
      if Py.isspace c then [] :: fields s'
      else
        match fields s' with
        | [] => [[c]]
        | l :: ls => (c :: l) :: ls
        end
  end.

Definition words (s : str) : list str := filter nonempty (fields s).

(** [pat] is a contiguous part of [s]. *)
Definition occurs (pat s : str) : Prop := exists a b, s = a ++ pat ++ b.

Fixpoint occursb (pat s : str) : bool :=
  Py.startswith s pat
  || match s with
     | [] => false
     | _ :: s' => occursb pat s'
     end.

(** In [x ++ pat] the pattern occurs at the end only: the occurrence
    after [x] is the first one. *)
Definition first_occ (pat x : str) : Prop :=
  forall a b, x ++ pat = a ++ pat ++ b -> b = [].

(** The document holds the start marker and, after it, the end marker. *)
Definition has_markers (content : str) : Prop :=
  exists a b c, content = a ++ START_MARKER ++ b ++ END_MARKER ++ c.

(** The text ends with a space or a tab. *)
Fixpoint ends_blank (s : str) : bool :=
  match s with
  | [] => false
  | c :: s' =>
      match s' with
      | [] => Textwrap.is_blank c
      | _ :: _ => ends_blank s'
      end
  end.

(** The text is empty or ends with a newline: what follows starts a line. *)
Fixpoint at_line_start (s : str) : bool :=
  match s with
  | [] => true
  | c :: s' =>
      match s' with
      | [] => c =? nl
      | _ :: _ => at_line_start s'
      end
  end.

(** The leading whitespace of the line that holds the first start marker. *)
Definition line_indent (content : str) : str :=
  match Re.lazy_until START_MARKER content with
  | Some (text_before, _) => Textwrap.take_blanks (last (Py.split nl text_before) [])
  | None => []
  end.

(** The fragment lines as they stand between the markers. *)
Definition indented_lines (indent markup : str) : list str :=
  map (fun line => match line with [] => [] | _ :: _ => indent ++ line end)
      (Py.splitlines markup).

(** The anchor of a list item, from text that is already escaped. *)
Definition anchor_html (url_e title_attribute name_e : str) : str :=
  codes "<a href=" ++ [dq] ++ url_e ++ [dq] ++ title_attribute
  ++ codes ">" ++ name_e ++ codes "</a>".

Definition title_html (d : option str) : str :=
  match d with
  | Some (c :: t) => codes " title=" ++ [dq] ++ Html.entities (c :: t) ++ [dq]
  | _ => []
  end.

Definition span_html (d : option str) : str :=
  match d with
  | Some (c :: t) =>
      codes "<span class=" ++ [dq] ++ codes "description" ++ [dq] ++ codes ">"
      ++ Html.entities (c :: t) ++ codes "</span>"
  | _ => []
  end.

(** A list item with every character of the name, the url and the
    description replaced by its character reference. *)
Definition item_markup (it : str * str * option str) : str :=
  let '(n, u, d) := it in
  codes "<li>" ++ codes " "
  ++ anchor_html (Html.entities u) (title_html d) (Html.entities n)
  ++ codes " " ++ span_html d ++ codes " " ++ codes "</li>".

Definition NO_PROJECTS : str :=
  codes "<p>No classified projects are currently published. Add a project and rerun the updater.</p>".

(** The fragment for typed projects, up to the layout of whitespace. *)
Definition expected_markup (items : list (str * str * option str)) : str :=
  match items with
  | [] => NO_PROJECTS
  | _ :: _ =>
      LIST_OPEN ++ codes " "
      ++ flat_map (fun it => item_markup it ++ codes " ") items
      ++ LIST_CLOSE
  end.

Definition project_of_item (it : str * str * option str) : Project :=
  let '(n, u, d) := it in typed_project n u d.

(** The lines one rendered item contributes to the list. *)
Definition item_lines (text : str) : list str :=
  map (app (spaces 2)) (Py.splitlines text).

Definition str_le (a b : str) : Prop := str_leb a b = true.

Definition entry_le {A} (x y : str * A) : Prop := str_le (fst x) (fst y).

Definition break_free (l : str) : bool :=
  forallb (fun c => negb (Py.is_linebreak c)) l.

(** The text that follows a line terminator [b]: a carriage return takes
    the line feed after it along. *)
Definition after_break (b : char) (t : str) : str :=
  match t with
  | d :: t' => if (b =? cr) && (d =? nl) then t' else t
  | [] => []
  end.

Definition blank_margin (m : option str) : Prop :=
  match m with
  | Some x => forallb Textwrap.is_blank x = true
  | None => True
  end.

Section Vocabulary.

Context {rt : Runtime}.

(** The metadata object of a directory entry, when the entry is a
    directory whose metadata file decodes to an object. *)
Definition metadata_of (entry : str * node) : option (list (str * json)) :=
  match snd entry with
  | Dir listing =>
      match lookup METADATA_FILE listing with
      | Some (File text) =>
          match json_loads text with
          | Decoded (JObj metadata) => Some metadata
          | _ => None
          end
      | _ => None
      end
  | File _ => None
  end.

(** The entry is a directory whose metadata file is not valid JSON. *)
Definition malformed (entry : str * node) (detail : str) : Prop :=
  exists listing text,
    snd entry = Dir listing
    /\ lookup METADATA_FILE listing = Some (File text)
    /\ json_loads text = JSONDecodeError detail.

Definition metadata_path (projects_root : Path) (entry : str * node) : Path :=
  child (child projects_root (fst entry)) METADATA_FILE.

(** The directories that yield a project, each with its metadata
    object, in the order of the listing given. *)
Definition with_metadata (entries : list (str * node))
  : list (str * list (str * json)) :=
  flat_map (fun e => match metadata_of e with
                     | Some metadata => [(fst e, metadata)]
                     | None => []
                     end) entries.

(** The project the script builds for a directory name and its
    metadata object. *)
Definition project_for (projects_root : Path) (d : str * list (str * json))
  : Project :=
  project_of (child projects_root (fst d)) (snd d).

(** The name recorded for a project: the metadata's [name] when the key
    holds a true value, the humanized directory name otherwise. *)
Definition name_policy (dir_name : str) (metadata : list (str * json)) : json :=
  match dict_get (codes "name") metadata with
  | Some v => if truthy v then v
              else JStr (title (Py.replace 45 (codes " ") dir_name))
  | None => JStr (title (Py.replace 45 (codes " ") dir_name))
  end.

Definition url_policy (project_dir : Path) (metadata : list (str * json)) : json :=
  match dict_get (codes "url") metadata with
  | Some v => if truthy v then v else JStr (as_posix project_dir ++ codes "/")
  | None => JStr (as_posix project_dir ++ codes "/")
  end.

Definition description_policy (metadata : list (str * json)) : json :=
  match dict_get (codes "description") metadata with
  | Some v => v
  | None => JNull
  end.

End Vocabulary.

(* ================================================================== *)
(** ** Vocabulary of the further properties *)

(** [nav_item] can render the project: the name and the url are strings,
    the description is a string or an object that counts as false. *)
Definition renderable (p : Project) : bool :=
  match name p, url p with
  | JStr _, JStr _ =>
      match description p with
      | JStr _ => true
      | d => negb (truthy d)
      end
  | _, _ => false
  end.

(** The text holds no newline. *)
Definition nl_free (l : str) : bool := forallb (fun c => negb (c =? nl)) l.

(** The three fields of an item hold no line terminator. *)
Definition single_line (it : str * str * option str) : bool :=
  let '(n, u, d) := it in
  break_free n && break_free u
  && match d with Some s => break_free s | None => true end.

(** The four lines of a list item inside the list. *)
Definition exact_item_lines (it : str * str * option str) : list str :=
  let '(n, u, d) := it in
  [spaces 2 ++ codes "<li>";
   spaces 4 ++ anchor_html (Html.entities u) (title_html d) (Html.entities n);
   match span_html d with
   | [] => spaces 2
   | c :: s => spaces 4 ++ c :: s
   end;
   spaces 2 ++ codes "</li>"].

(** The text of an item as [nav_item] returns it when no field holds a
    newline. *)
Definition exact_item_text (it : str * str * option str) : str :=
  let '(n, u, d) := it in
  codes "<li>" ++ [nl]
  ++ spaces 2 ++ anchor_html (Html.entities u) (title_html d) (Html.entities n) ++ [nl]
  ++ match span_html d with
     | [] => []
     | c :: s => spaces 2 ++ c :: s
     end ++ [nl]
  ++ codes "</li>".

(** How often a character occurs. *)
Fixpoint count (c : char) (s : str) : nat :=
  match s with
  | [] => O
  | x :: s' => (if x =? c then 1 else 0) + count c s'
  end.

(** The text without its whitespace. *)
Definition squeeze (s : str) : str := filter (fun c => negb (Py.isspace c)) s.

Definition has_description (it : str * str * option str) : bool :=
  match snd it with
  | Some (_ :: _) => true
  | _ => false
  end.

(** No [<] of the text is followed by [!]: no comment opens in it. *)
Fixpoint no_comment_open (s : str) : bool :=
  match s with
  | [] => true
  | c :: s' =>
      negb ((c =? 60) && match s' with d :: _ => d =? 33 | [] => false end)
      && no_comment_open s'
  end.

(** The text ends with [<]. *)
Fixpoint ends_lt (s : str) : bool :=
  match s with
  | [] => false
  | c :: s' =>
      match s' with
      | [] => c =? 60
      | _ :: _ => ends_lt s'
      end
  end.

Definition lt_free (s : str) : bool := forallb (fun c => negb (c =? 60)) s.

(** A text that opens no comment and does not end with [<]: texts of this
    kind can be put one after the other without a comment opening. *)
Definition plain (x : str) : Prop := no_comment_open x = true /\ ends_lt x = false.

Section FurtherVocabulary.

Context {rt : Runtime}.

(** The loop can pass the entry: it is no directory, or a directory
    without metadata file, or one whose metadata file decodes to an object. *)
Definition scannable (entry : str * node) : bool :=
  match snd entry with
  | File _ => true
  | Dir listing =>
      match lookup METADATA_FILE listing with
      | None => true
      | Some (File text) =>
          match json_loads text with
          | Decoded (JObj _) => true
          | _ => false
          end
      | Some (Dir _) => false
      end
  end.

End FurtherVocabulary.


(** The description as far as it shows in an item: an empty description
    is rendered like a missing one. *)
Definition shown (d : option str) : option str :=
  match d with
  | Some (c :: t) => Some (c :: t)
  | _ => None
  end.
(* ================================================================== *)
(** ** Strings: equality, prefixes, occurrences *)

Ltac bool_to_prop :=
  repeat match goal with
    | H : _ && _ = true |- _ => apply andb_true_iff in H; destruct H
    | H : _ || _ = true |- _ => apply orb_true_iff in H; destruct H
    | H : _ || _ = false |- _ => apply orb_false_iff in H; destruct H
    | H : (_ =? _) = true |- _ => apply N.eqb_eq in H
    | H : (_ =? _) = false |- _ => apply N.eqb_neq in H
    | H : (_ <=? _) = true |- _ => apply N.leb_le in H
    | H : (_ <=? _) = false |- _ => apply N.leb_gt in H
    | H : (_ <? _) = true |- _ => apply N.ltb_lt in H
    | H : (_ <? _) = false |- _ => apply N.ltb_ge in H
    end.

Lemma str_eqb_eq (a b : str) : str_eqb a b = true <-> a = b.
Proof.
  revert b; induction a as [|x a IH]; intros [|y b]; simpl; split;
    try discriminate; try reflexivity.
  - intros H; bool_to_prop. subst. f_equal. now apply IH.
  - intros H; injection H as -> ->. rewrite N.eqb_refl. now apply IH.
Qed.

Lemma str_eqb_refl (a : str) : str_eqb a a = true.
Proof. now apply str_eqb_eq. Qed.

Lemma str_eqb_neq (a b : str) : str_eqb a b = false -> a <> b.
Proof. intros H E. apply str_eqb_eq in E. congruence. Qed.

Lemma strip_prefix_some (p s r : str) :
  Py.strip_prefix p s = Some r <-> s = p ++ r.
Proof.
  revert s; induction p as [|x p IH]; intros s; simpl.
  - split; congruence.
  - destruct s as [|y s]; [split; discriminate|].
    destruct (N.eqb_spec x y) as [->|N].
    + rewrite IH. split; congruence.
    + split; [discriminate | intros E; injection E; congruence].
Qed.

Lemma strip_prefix_app (p r : str) : Py.strip_prefix p (p ++ r) = Some r.
Proof. now apply strip_prefix_some. Qed.

Lemma strip_prefix_none (p s : str) :
  Py.strip_prefix p s = None -> forall r, s <> p ++ r.
Proof. intros H r E. apply strip_prefix_some in E. congruence. Qed.

Lemma occursb_occurs (pat s : str) : occursb pat s = true <-> occurs pat s.
Proof.
  induction s as [|c s IH].
  - simpl. unfold Py.startswith. rewrite orb_false_r. split.
    + destruct (Py.strip_prefix pat []) as [r|] eqn:E; [|discriminate].
      intros _. apply strip_prefix_some in E. now exists [], r.
    + intros (a & b & E). destruct a; [|discriminate].
      simpl in E. rewrite E at 1. now rewrite strip_prefix_app.
  - cbn [occursb]. rewrite orb_true_iff, IH. unfold Py.startswith. split.
    + intros [H|(a & b & E)].
      * destruct (Py.strip_prefix pat (c :: s)) as [r|] eqn:E; [|discriminate].
        apply strip_prefix_some in E. now exists [], r.
      * exists (c :: a), b. now rewrite E.
    + intros (a & b & E). destruct a as [|x a].
      * left. simpl in E. rewrite E. now rewrite strip_prefix_app.
      * right. injection E as _ E. now exists a, b.
Qed.

Lemma not_occurs (pat s : str) : occursb pat s = false -> ~ occurs pat s.
Proof. intros H O. apply occursb_occurs in O. congruence. Qed.

Lemma blank_isspace (c : char) : Textwrap.is_blank c = true -> Py.isspace c = true.
Proof.
  unfold Textwrap.is_blank. intros H. bool_to_prop; subst; reflexivity.
Qed.

Lemma linebreak_isspace (c : char) : Py.is_linebreak c = true -> Py.isspace c = true.
Proof.
  unfold Py.is_linebreak, Py.isspace. intros H.
  repeat rewrite orb_true_iff. repeat rewrite andb_true_iff.
  repeat rewrite N.leb_le. repeat rewrite N.eqb_eq.
  bool_to_prop; lia.
Qed.

Lemma blanks_isspace (l : str) :
  forallb Textwrap.is_blank l = true -> forallb Py.isspace l = true.
Proof.
  induction l as [|c l IH]; simpl; [reflexivity|].
  intros H. bool_to_prop. rewrite blank_isspace by assumption. now apply IH.
Qed.

(* ================================================================== *)
(** ** Whitespace-separated words *)

Lemma fields_not_nil (s : str) : fields s <> [].
Proof.
  induction s as [|c s IH]; simpl; [discriminate|].
  destruct (Py.isspace c); [discriminate|].
  destruct (fields s); [contradiction | discriminate].
Qed.

Lemma fields_app_space (a b : str) (w : char) :
  Py.isspace w = true -> fields (a ++ w :: b) = fields a ++ fields b.
Proof.
  intros W. induction a as [|c a IH]; simpl.
  - now rewrite W.
  - destruct (Py.isspace c).
    + now rewrite IH.
    + rewrite IH. destruct (fields a) eqn:E; [|reflexivity].
      now apply fields_not_nil in E.
Qed.

Lemma words_app_space (a b : str) (w : char) :
  Py.isspace w = true -> words (a ++ w :: b) = words a ++ words b.
Proof.
  intros W. unfold words. rewrite fields_app_space by assumption.
  apply filter_app.
Qed.

Lemma words_cons_space (w : char) (s : str) :
  Py.isspace w = true -> words (w :: s) = words s.
Proof. intros W. apply (words_app_space [] s w W). Qed.

Lemma words_lead (a b : str) :
  forallb Py.isspace a = true -> words (a ++ b) = words b.
Proof.
  induction a as [|c a IH]; simpl; [reflexivity|].
  intros H. bool_to_prop. rewrite words_cons_space by assumption. now apply IH.
Qed.

Lemma words_spaces (a : str) : forallb Py.isspace a = true -> words a = [].
Proof. intros H. rewrite <- (app_nil_r a). now rewrite words_lead. Qed.

Lemma words_trail (a b : str) :
  forallb Py.isspace b = true -> words (a ++ b) = words a.
Proof.
  destruct b as [|w b]; simpl; [now rewrite app_nil_r|].
  intros H. bool_to_prop. rewrite words_app_space by assumption.
  rewrite (words_spaces b) by assumption. apply app_nil_r.
Qed.

Lemma join_cons2 (sep l l2 : str) (ls : list str) :
  Py.join sep (l :: l2 :: ls) = l ++ sep ++ Py.join sep (l2 :: ls).
Proof. reflexivity. Qed.

Lemma words_join_nl (ls : list str) :
  words (Py.join [nl] ls) = flat_map words ls.
Proof.
  induction ls as [|l ls IH]; [reflexivity|].
  destruct ls as [|l2 ls].
  - simpl. now rewrite app_nil_r.
  - rewrite join_cons2. cbn [app]. rewrite words_app_space by reflexivity.
    rewrite IH. reflexivity.
Qed.

Lemma split_not_nil (sep : char) (s : str) : Py.split sep s <> [].
Proof.
  destruct s as [|c s]; simpl; [discriminate|].
  destruct (c =? sep); [discriminate|].
  destruct (Py.split sep s); discriminate.
Qed.

Lemma join_split (s : str) : Py.join [nl] (Py.split nl s) = s.
Proof.
  induction s as [|c s IH]; [reflexivity|].
  cbn [Py.split]. pose proof (split_not_nil nl s) as NE.
  destruct (Py.split nl s) as [|l ls]; [contradiction|].
  destruct (N.eqb_spec c nl) as [->|N].
  - rewrite join_cons2. now rewrite IH.
  - destruct ls; simpl in *; now rewrite <- IH.
Qed.

Lemma flat_map_words_map (f : str -> str) (ls : list str) :
  (forall l, words (f l) = words l) ->
  flat_map words (map f ls) = flat_map words ls.
Proof.
  intros H. induction ls as [|l ls IH]; simpl; [reflexivity|].
  now rewrite H, IH.
Qed.

(* ================================================================== *)
(** ** [html.escape] replaces character by character *)

Lemma replace_app (old : char) (new a b : str) :
  Py.replace old new (a ++ b) = Py.replace old new a ++ Py.replace old new b.
Proof.
  induction a as [|c a IH]; simpl; [reflexivity|].
  now rewrite IH, app_assoc.
Qed.

Lemma escape_app (a b : str) : Html.escape (a ++ b) = Html.escape a ++ Html.escape b.
Proof. unfold Html.escape. now rewrite !replace_app. Qed.

Lemma escape_single (c : char) : Html.escape [c] = Html.entity c.
Proof.
  unfold Html.escape, Html.entity.
  destruct (N.eqb_spec c 38) as [->|N1]; [reflexivity|].
  destruct (N.eqb_spec c 60) as [->|N2]; [reflexivity|].
  destruct (N.eqb_spec c 62) as [->|N3]; [reflexivity|].
  destruct (N.eqb_spec c dq) as [->|N4]; [reflexivity|].
  destruct (N.eqb_spec c 39) as [->|N5]; [reflexivity|].
  apply N.eqb_neq in N1, N2, N3, N4, N5.
  simpl. rewrite N1. simpl. rewrite N2. simpl. rewrite N3. simpl.
  rewrite N4. simpl. now rewrite N5.
Qed.

Lemma escape_entities (s : str) : Html.escape s = Html.entities s.
Proof.
  induction s as [|c s IH]; [reflexivity|].
  change (c :: s) with ([c] ++ s). rewrite escape_app, escape_single, IH.
  reflexivity.
Qed.

(** No character reference holds a raw [<], [>], double or single quote. *)
Lemma entities_clean (s : str) (c : char) :
  In c (Html.entities s) -> c <> 60 /\ c <> 62 /\ c <> dq /\ c <> 39.
Proof.
  unfold Html.entities. rewrite in_flat_map. intros (x & _ & H).
  unfold Html.entity in H.
  repeat match type of H with
         | In _ (if ?b then _ else _) => destruct b eqn:?
         end; bool_to_prop; simpl in H; unfold dq in *;
    repeat (destruct H as [<-|H]; [lia|]); try contradiction.
Qed.

Lemma escape_nonempty (s : str) : nonempty (Html.escape s) = nonempty s.
Proof.
  rewrite escape_entities. destruct s as [|c s]; [reflexivity|].
  simpl. unfold Html.entity.
  repeat match goal with |- context [if ?b then _ else _] => destruct b end;
    reflexivity.
Qed.

(* ================================================================== *)
(** ** [strip] and [dedent] change whitespace only *)

Lemma rstrip_decompose (s : str) :
  exists t, s = Py.rstrip s ++ t /\ forallb Py.isspace t = true.
Proof.
  induction s as [|c s (t & E & W)]; [now exists []|].
  simpl. destruct (Py.rstrip s) as [|r rs] eqn:R.
  - simpl in E. subst t. destruct (Py.isspace c) eqn:C.
    + exists (c :: s). simpl. now rewrite C.
    + now exists s.
  - exists t. split; [|assumption]. simpl. now rewrite E at 1.
Qed.

Lemma lstrip_decompose (s : str) :
  exists t, s = t ++ Py.lstrip s /\ forallb Py.isspace t = true.
Proof.
  induction s as [|c s (t & E & W)]; [now exists []|].
  simpl. destruct (Py.isspace c) eqn:C.
  - exists (c :: t). simpl. rewrite C. split; [now rewrite E at 1|assumption].
  - now exists [].
Qed.

Lemma words_strip (s : str) : words (Py.strip s) = words s.
Proof.
  unfold Py.strip.
  destruct (lstrip_decompose (Py.rstrip s)) as (a & Ea & Wa).
  destruct (rstrip_decompose s) as (b & Eb & Wb).
  rewrite Eb at 2. rewrite words_trail by assumption.
  rewrite Ea at 2. now rewrite words_lead.
Qed.

Lemma take_blanks_blank (l : str) :
  forallb Textwrap.is_blank (Textwrap.take_blanks l) = true.
Proof.
  induction l as [|c l IH]; simpl; [reflexivity|].
  destruct (Textwrap.is_blank c) eqn:C; simpl; [now rewrite C|reflexivity].
Qed.

Lemma common_prefix_blank (a b : str) :
  forallb Textwrap.is_blank a = true ->
  forallb Textwrap.is_blank (Textwrap.common_prefix a b) = true.
Proof.
  revert b; induction a as [|x a IH]; intros [|y b] H; simpl; try reflexivity.
  simpl in H. bool_to_prop. destruct (x =? y); simpl; [|reflexivity].
  rewrite H. now apply IH.
Qed.

Lemma margin_step_blank (m : option str) (i : str) :
  blank_margin m -> forallb Textwrap.is_blank i = true ->
  blank_margin (Textwrap.margin_step m i).
Proof.
  destruct m as [x|]; simpl; intros Hm Hi; [|assumption].
  destruct (Py.startswith i x); [assumption|].
  destruct (Py.startswith x i); [assumption|].
  now apply common_prefix_blank.
Qed.

Lemma fold_margin_blank (inds : list str) (m : option str) :
  blank_margin m -> Forall (fun i => forallb Textwrap.is_blank i = true) inds ->
  blank_margin (fold_left Textwrap.margin_step inds m).
Proof.
  revert m; induction inds as [|i inds IH]; intros m Hm Hi; simpl; [assumption|].
  inversion Hi; subst. apply IH; [|assumption]. now apply margin_step_blank.
Qed.

Lemma leading_whitespace_blank (lines : list str) :
  Forall (fun i => forallb Textwrap.is_blank i = true)
         (Textwrap.leading_whitespace lines).
Proof.
  apply Forall_forall. intros i H. unfold Textwrap.leading_whitespace in H.
  apply in_flat_map in H. destruct H as (l & _ & H).
  destruct (forallb Textwrap.is_blank l); [contradiction|].
  destruct H as [<-|[]]. apply take_blanks_blank.
Qed.

Lemma words_clear_blank_line (l : str) :
  words (Textwrap.clear_blank_line l) = words l.
Proof.
  unfold Textwrap.clear_blank_line.
  destruct (forallb Textwrap.is_blank l) eqn:B; [|reflexivity].
  symmetry. apply words_spaces. now apply blanks_isspace.
Qed.

Lemma words_remove_margin (m l : str) :
  forallb Textwrap.is_blank m = true ->
  words (Textwrap.remove_margin m l) = words l.
Proof.
  intros B. unfold Textwrap.remove_margin.
  destruct (Py.strip_prefix m l) as [r|] eqn:E; [|reflexivity].
  apply strip_prefix_some in E. subst l. symmetry.
  apply words_lead. now apply blanks_isspace.
Qed.

Lemma words_dedent (text : str) : words (Textwrap.dedent text) = words text.
Proof.
  unfold Textwrap.dedent.
  set (lines := map Textwrap.clear_blank_line (Py.split nl text)).
  assert (L : flat_map words lines = words text).
  { unfold lines. rewrite flat_map_words_map by apply words_clear_blank_line.
    rewrite <- words_join_nl. now rewrite join_split. }
  pose proof (fold_margin_blank (Textwrap.leading_whitespace lines) None I
                (leading_whitespace_blank lines)) as M.
  destruct (fold_left Textwrap.margin_step (Textwrap.leading_whitespace lines) None)
    as [[|c m]|]; rewrite words_join_nl; try assumption.
  rewrite flat_map_words_map; [assumption|].
  intros l. now apply words_remove_margin.
Qed.

(* ================================================================== *)
(** ** Lines *)

Lemma str_length_ind (P : str -> Prop) :
  (forall s, (forall t, (length t < length s)%nat -> P t) -> P s) ->
  forall s, P s.
Proof.
  intros H s. remember (length s) as n eqn:E. revert s E.
  induction n as [n IH] using lt_wf_ind. intros s ->.
  apply H. intros t L. now apply (IH (length t)).
Qed.

Lemma splitlines_line (l t : str) (b : char) :
  break_free l = true -> Py.is_linebreak b = true ->
  Py.splitlines (l ++ b :: t) = l :: Py.splitlines (after_break b t).
Proof.
  intros L B. induction l as [|c l IH].
  - cbn [app Py.splitlines]. rewrite B. f_equal.
    unfold after_break. destruct t as [|d t']; [reflexivity|].
    now destruct ((b =? cr) && (d =? nl)).
  - cbn [break_free forallb] in L. apply andb_true_iff in L. destruct L as [C L].
    apply negb_true_iff in C. cbn [app Py.splitlines]. rewrite C.
    now rewrite (IH L).
Qed.

Lemma splitlines_single (l : str) :
  break_free l = true -> l <> [] -> Py.splitlines l = [l].
Proof.
  induction l as [|c l IH]; [contradiction|]. intros L _.
  cbn [break_free forallb] in L. apply andb_true_iff in L. destruct L as [C L].
  apply negb_true_iff in C. cbn [Py.splitlines]. rewrite C.
  destruct l as [|d l]; [reflexivity|].
  rewrite IH; [reflexivity | assumption | discriminate].
Qed.

Lemma line_decompose (s : str) :
  exists l, break_free l = true
            /\ (s = l \/ exists b t, s = l ++ b :: t /\ Py.is_linebreak b = true).
Proof.
  induction s as [|c s (l & L & D)].
  - exists []. now split; [|left].
  - destruct (Py.is_linebreak c) eqn:C.
    + exists []. split; [reflexivity|]. right. now exists c, s.
    + exists (c :: l). split.
      * cbn [break_free forallb]. now rewrite C.
      * destruct D as [->|(b & t & -> & B)]; [now left|].
        right. now exists b, t.
Qed.

Lemma after_break_length (b : char) (t : str) :
  (length (after_break b t) <= length t)%nat.
Proof.
  destruct t as [|d t]; simpl; [lia|].
  destruct ((b =? cr) && (d =? nl)); simpl; lia.
Qed.

Lemma after_break_suffix (b : char) (t : str) :
  exists x, t = x ++ after_break b t /\ forallb Py.isspace x = true.
Proof.
  destruct t as [|d t]; simpl; [now exists []|].
  destruct ((b =? cr) && (d =? nl)) eqn:E.
  - bool_to_prop. subst. now exists [nl].
  - now exists [].
Qed.

Lemma words_after_break (b : char) (t : str) :
  words (after_break b t) = words t.
Proof.
  destruct (after_break_suffix b t) as (x & E & W).
  rewrite E at 2. now rewrite words_lead.
Qed.

Lemma splitlines_cases (P : str -> list str -> Prop) :
  P [] [] ->
  (forall l, break_free l = true -> l <> [] -> P l [l]) ->
  (forall l b t, break_free l = true -> Py.is_linebreak b = true ->
                 P (after_break b t) (Py.splitlines (after_break b t)) ->
                 P (l ++ b :: t) (l :: Py.splitlines (after_break b t))) ->
  forall s, P s (Py.splitlines s).
Proof.
  intros H0 H1 H2. induction s as [s IH] using str_length_ind.
  destruct (line_decompose s) as (l & L & [->|(b & t & -> & B)]).
  - destruct l as [|c l]; [exact H0|].
    rewrite splitlines_single by (assumption || discriminate).
    apply H1; [assumption|discriminate].
  - rewrite splitlines_line by assumption. apply H2; try assumption.
    apply IH. rewrite length_app. simpl.
    pose proof (after_break_length b t). lia.
Qed.

Lemma words_splitlines (s : str) : flat_map words (Py.splitlines s) = words s.
Proof.
  apply (splitlines_cases (fun s ls => flat_map words ls = words s)).
  - reflexivity.
  - intros l _ _. simpl. apply app_nil_r.
  - intros l b t _ B IH. simpl. rewrite IH, words_after_break.
    symmetry. apply words_app_space. now apply linebreak_isspace.
Qed.

Lemma splitlines_break_free (s : str) :
  Forall (fun l => break_free l = true) (Py.splitlines s).
Proof.
  apply (splitlines_cases (fun _ ls => Forall (fun l => break_free l = true) ls));
    auto.
Qed.

Lemma splitlines_occurs (s l : str) : In l (Py.splitlines s) -> occurs l s.
Proof.
  revert l.
  apply (splitlines_cases (fun s ls => forall l, In l ls -> occurs l s)).
  - intros l [].
  - intros l _ _ x [<-|[]]. exists [], []. now rewrite app_nil_r.
  - intros l b t _ _ IH x [<-|H].
    + now exists [], (b :: t).
    + destruct (IH x H) as (u & v & E).
      destruct (after_break_suffix b t) as (y & Et & _).
      exists (l ++ b :: y ++ u), v. rewrite Et at 1. rewrite E.
      repeat (rewrite <- app_assoc; simpl). reflexivity.
Qed.

Lemma splitlines_nil (s : str) : Py.splitlines s = [] -> s = [].
Proof.
  destruct s as [|c s]; [reflexivity|]. simpl.
  destruct (Py.is_linebreak c); [discriminate|].
  destruct (Py.splitlines s); discriminate.
Qed.

Lemma splitlines_join (ls : list str) :
  Forall (fun l => break_free l = true /\ l <> []) ls ->
  Py.splitlines (Py.join [nl] ls) = ls.
Proof.
  induction ls as [|l ls IH]; [reflexivity|]. intros H.
  inversion H as [|? ? [L N] H']; subst.
  destruct ls as [|l2 ls].
  - simpl. now apply splitlines_single.
  - rewrite join_cons2. cbn [app]. rewrite splitlines_line by (assumption || reflexivity).
    f_equal. rewrite <- (IH H') at 2. f_equal.
    unfold after_break. destruct (Py.join [nl] (l2 :: ls)); reflexivity.
Qed.

(* ================================================================== *)
(** ** Rendering *)

Lemma spaces_isspace (n : nat) : forallb Py.isspace (spaces n) = true.
Proof. induction n as [|n IH]; [reflexivity|]. simpl. exact IH. Qed.


Lemma words_indent_block (text : str) (n : nat) :
  words (indent_block text n) = words text.
Proof.
  unfold indent_block. rewrite words_join_nl.
  rewrite flat_map_words_map; [apply words_splitlines|].
  intros [|c l]; simpl nonempty; cbv iota.
  - apply words_spaces, spaces_isspace.
  - apply words_lead, spaces_isspace.
Qed.

Lemma nav_item_text_anchor (u ta n dh : str) :
  nav_item_text u ta n dh =
  nl :: (spaces 12 ++ codes "<li>")
  ++ nl :: (spaces 14 ++ anchor_html u ta n)
  ++ nl :: (spaces 14 ++ dh)
  ++ nl :: (spaces 12 ++ codes "</li>")
  ++ nl :: spaces 12.
Proof.
  unfold nav_item_text, anchor_html.
  repeat (rewrite <- app_assoc; cbn [app]). reflexivity.
Qed.

Lemma words_nav_item_text (u ta n dh : str) :
  words (nav_item_text u ta n dh) =
  words (codes "<li>") ++ words (anchor_html u ta n) ++ words dh
  ++ words (codes "</li>").
Proof.
  rewrite nav_item_text_anchor.
  rewrite words_cons_space by reflexivity.
  repeat rewrite words_app_space by reflexivity.
  rewrite !words_lead by apply spaces_isspace.
  rewrite (words_spaces (spaces 12)) by apply spaces_isspace.
  now rewrite app_nil_r.
Qed.

Lemma words_item_markup (n u : str) (d : option str) :
  words (item_markup (n, u, d)) =
  words (nav_item_text (Html.entities u) (title_html d) (Html.entities n) (span_html d)).
Proof.
  rewrite words_nav_item_text. unfold item_markup.
  change (codes " ") with [32]. cbn [app].
  now rewrite !words_app_space by reflexivity.
Qed.

Lemma nav_item_typed (n u : str) (d : option str) :
  nav_item (typed_project n u d) =
  Return (Py.strip (Textwrap.dedent
            (nav_item_text (Html.entities u) (title_html d) (Html.entities n)
                           (span_html d)))).
Proof.
  unfold nav_item, typed_project. cbn [description url name].
  destruct d as [[|c t]|]; cbn [truthy nonempty escape_value bind Py.truthy_str];
    rewrite ?escape_entities; try reflexivity.
  unfold title_html, span_html.
  destruct (Html.entities (c :: t)) as [|e es] eqn:E; [|reflexivity].
  pose proof (escape_nonempty (c :: t)) as NE. rewrite escape_entities, E in NE.
  discriminate.
Qed.

(** What [nav_item] returns is never empty: it holds the [<li>] tag. *)
Lemma nav_item_shape (p : Project) (t : str) :
  nav_item p = Return t ->
  exists u ta n dh, t = Py.strip (Textwrap.dedent (nav_item_text u ta n dh)).
Proof.
  unfold nav_item. intros H.
  destruct (if truthy (description p) then escape_value (description p) else Return [])
    as [ta| |]; cbn [bind] in H; try discriminate.
  destruct (if truthy (description p)
            then e <- escape_value (description p) ;; Return _ else Return [])
    as [dh| |]; cbn [bind] in H; try discriminate.
  destruct (escape_value (url p)) as [u| |]; cbn [bind] in H; try discriminate.
  destruct (escape_value (name p)) as [n| |]; cbn [bind] in H; try discriminate.
  injection H as <-. eauto.
Qed.

Lemma nav_item_nonempty (p : Project) (t : str) : nav_item p = Return t -> t <> [].
Proof.
  intros H ->. apply nav_item_shape in H. destruct H as (u & ta & n & dh & E).
  apply (f_equal words) in E.
  rewrite words_strip, words_dedent, words_nav_item_text in E.
  discriminate.
Qed.

Lemma render_items_typed (items : list (str * str * option str)) :
  render_items (map project_of_item items) =
  Return (map (fun it =>
                 let '(n, u, d) := it in
                 indent_block
                   (Py.strip (Textwrap.dedent
                      (nav_item_text (Html.entities u) (title_html d)
                                     (Html.entities n) (span_html d)))) 2)
              items).
Proof.
  induction items as [|[[n u] d] items IH]; [reflexivity|].
  cbn [map render_items project_of_item]. rewrite nav_item_typed. cbn [bind].
  rewrite IH. reflexivity.
Qed.

Lemma words_lines (nav_items : str) :
  words (Py.join [nl]
           ((if Py.truthy_str nav_items
             then [LIST_OPEN] ++ Py.splitlines nav_items else [LIST_OPEN])
            ++ [LIST_CLOSE])) =
  words LIST_OPEN ++ words nav_items ++ words LIST_CLOSE.
Proof.
  rewrite words_join_nl. destruct nav_items as [|c s]; cbn [Py.truthy_str nonempty].
  - cbn [app flat_map]. change (words []) with (@nil str).
    now rewrite app_nil_r.
  - rewrite !flat_map_app. cbn [flat_map]. rewrite !app_nil_r.
    rewrite words_splitlines. now rewrite <- app_assoc.
Qed.

Lemma words_items_row (items : list (str * str * option str)) (rest : str) :
  words (flat_map (fun it => item_markup it ++ codes " ") items ++ rest) =
  flat_map (fun it => words (item_markup it)) items ++ words rest.
Proof.
  change (codes " ") with [32].
  induction items as [|it items IH]; [reflexivity|].
  cbn [flat_map].
  rewrite <- !app_assoc. cbn [app].
  rewrite words_app_space by reflexivity. rewrite IH. now rewrite app_assoc.
Qed.

Lemma no_projects_text : Py.strip (Textwrap.dedent NO_PROJECTS_TEXT) = NO_PROJECTS.
Proof. vm_compute. reflexivity. Qed.

(** C1. For every sequence of projects (with fields of the declared
    types) rendering succeeds, and the fragment is, word for word, the list
    markup in which the href holds the character references of the url, the
    anchor text those of the name, and the title attribute and the
    description span those of the description: every [<], [&] and double
    quote of the user's text appears as [&lt;], [&amp;], [&quot;]. *)
Theorem rendering_escapes_user_text (items : list (str * str * option str)) :
  exists fragment,
    build_navigation_markup (map project_of_item items) = Return fragment
    /\ words fragment = words (expected_markup items).
Proof.
  destruct items as [|it items].
  - exists NO_PROJECTS. split; [|reflexivity].
    cbn [map build_navigation_markup]. now rewrite no_projects_text.
  - set (all := it :: items).
    unfold build_navigation_markup.
    change (map project_of_item all) with (project_of_item it :: map project_of_item items).
    cbv iota beta.
    change (project_of_item it :: map project_of_item items)
      with (map project_of_item all).
    rewrite render_items_typed. cbn [bind].
    eexists. split; [reflexivity|].
    rewrite words_lines.
    unfold expected_markup, all. change (codes " ") with [32] at 1.
    cbn [app]. rewrite words_app_space by reflexivity.
    fold all. rewrite words_items_row. f_equal. f_equal.
    rewrite words_join_nl. rewrite flat_map_concat_map, map_map.
    rewrite <- flat_map_concat_map. apply flat_map_ext.
    intros [[n u] d]. rewrite words_indent_block, words_strip, words_dedent.
    symmetry. apply words_item_markup.
Qed.

(** A project whose three fields hold [<], [&] and a double quote,
    rendered in full. *)
Example rendering_escapes_sample :
  build_navigation_markup
    [typed_project (codes "a<b") (codes "x?y&z")
                   (Some (codes "say " ++ [dq] ++ codes "hi" ++ [dq]))]
  = Return (Py.join [nl]
      [LIST_OPEN;
       codes "  <li>";
       codes "    <a href=" ++ [dq] ++ codes "x?y&amp;z" ++ [dq]
         ++ codes " title=" ++ [dq] ++ codes "say &quot;hi&quot;" ++ [dq]
         ++ codes ">a&lt;b</a>";
       codes "    <span class=" ++ [dq] ++ codes "description" ++ [dq]
         ++ codes ">say &quot;hi&quot;</span>";
       codes "  </li>";
       LIST_CLOSE]).
Proof. vm_compute. reflexivity. Qed.

(** The end-to-end scenario: one directory [demo] whose metadata names
    the project, its url and its description. *)
Example demo_scenario :
  stdout (main (rt := Sample.runtime)
            (Sample.disk [Sample.project_dir "demo" Sample.demo_metadata]
                         Sample.empty_page)
            (Sample.args true))
  = [Py.join [nl]
       [LIST_OPEN;
        codes "  <li>";
        codes "    <a href=" ++ [dq] ++ codes "demo/" ++ [dq]
          ++ codes " title=" ++ [dq] ++ codes "A sample" ++ [dq]
          ++ codes ">Demo</a>";
        codes "    <span class=" ++ [dq] ++ codes "description" ++ [dq]
          ++ codes ">A sample</span>";
        codes "  </li>";
        LIST_CLOSE]].
Proof. vm_compute. reflexivity. Qed.

(* ================================================================== *)
(** ** The marker pattern finds the first marker pair *)

Lemma first_occ_nil (p : str) : first_occ p [].
Proof.
  intros a b E. apply (f_equal (@length _)) in E.
  rewrite !length_app in E. simpl in E. destruct b; [reflexivity|simpl in E; lia].
Qed.

Lemma first_occ_tail (p g : str) (c : char) : first_occ p (c :: g) -> first_occ p g.
Proof. intros F a b E. apply (F (c :: a) b). simpl. now rewrite E. Qed.

Lemma prefix_of_longer (p x r r' : str) :
  x ++ r = p ++ r' -> (length p <= length x)%nat -> exists b, x = p ++ b.
Proof.
  intros E L. apply app_eq_app in E. destruct E as (l & [[-> _]|[-> _]]).
  - now exists l.
  - rewrite length_app in L. destruct l; [|simpl in L; lia].
    exists []. now rewrite !app_nil_r.
Qed.

(** Before the first occurrence there is none. *)
Lemma first_occ_earliest (p x t a b : str) :
  first_occ p x -> x ++ p ++ t = a ++ p ++ b -> (length x <= length a)%nat.
Proof.
  intros F E. destruct (Nat.le_gt_cases (length x) (length a)) as [|L]; [assumption|].
  exfalso. rewrite !app_assoc in E. symmetry in E.
  destruct (prefix_of_longer (a ++ p) (x ++ p) t b) as (b' & E').
  - now rewrite E.
  - rewrite !length_app. lia.
  - rewrite <- app_assoc in E'. pose proof (F a b' E') as ->.
    apply (f_equal (@length _)) in E'. rewrite !length_app in E'. simpl in E'. lia.
Qed.

Lemma lazy_until_eq (p s : str) :
  Re.lazy_until p s =
  match Py.strip_prefix p s with
  | Some rest => Some ([], rest)
  | None =>
      match s with
      | [] => None
      | c :: s' =>
          match Re.lazy_until p s' with
          | Some (g, rest) => Some (c :: g, rest)
          | None => None
          end
      end
  end.
Proof. destruct s; reflexivity. Qed.

Lemma lazy_until_some (p s g r : str) :
  Re.lazy_until p s = Some (g, r) -> s = g ++ p ++ r /\ first_occ p g.
Proof.
  revert g; induction s as [|c s IH]; intros g; rewrite lazy_until_eq;
    destruct (Py.strip_prefix p _) as [rest|] eqn:E.
  - intros H; injection H as <- <-. apply strip_prefix_some in E.
    split; [assumption|apply first_occ_nil].
  - discriminate.
  - intros H; injection H as <- <-. apply strip_prefix_some in E.
    split; [assumption|apply first_occ_nil].
  - destruct (Re.lazy_until p s) as [[g' r']|]; [|discriminate].
    intros H; injection H as <- <-. destruct (IH g' eq_refl) as [-> F].
    split; [reflexivity|]. intros [|x a] b Eq.
    + exfalso. apply (strip_prefix_none _ _ E (b ++ r')).
      change (c :: g' ++ p ++ r') with ((c :: g') ++ p ++ r').
      rewrite !app_assoc. f_equal. exact Eq.
    + injection Eq as _ Eq. now apply (F a b).
Qed.

Lemma lazy_until_intro (p g r : str) :
  first_occ p g -> Re.lazy_until p (g ++ p ++ r) = Some (g, r).
Proof.
  induction g as [|c g IH]; intros F; rewrite lazy_until_eq.
  - simpl. now rewrite strip_prefix_app.
  - destruct (Py.strip_prefix p _) as [rest|] eqn:E.
    + exfalso. apply strip_prefix_some in E.
      rewrite app_assoc in E.
      destruct (prefix_of_longer p ((c :: g) ++ p) r rest E) as (b & Eb).
      * rewrite length_app. lia.
      * pose proof (F [] b Eb) as ->. apply (f_equal (@length _)) in Eb.
        rewrite !length_app in Eb. simpl in Eb. lia.
    + cbn [app]. rewrite IH by (eapply first_occ_tail; eassumption). reflexivity.
Qed.

Lemma lazy_until_complete (p a b : str) : Re.lazy_until p (a ++ p ++ b) <> None.
Proof.
  induction a as [|c a IH]; rewrite lazy_until_eq.
  - simpl. now rewrite strip_prefix_app.
  - destruct (Py.strip_prefix p _); [discriminate|]. cbn [app].
    destruct (Re.lazy_until p (a ++ p ++ b)) as [[g r]|]; [discriminate|contradiction].
Qed.

Lemma START_head : START_MARKER = 60 :: codes "!-- PROJECT_NAV_START -->".
Proof. reflexivity. Qed.

Lemma END_head : END_MARKER = 60 :: codes "!-- PROJECT_NAV_END -->".
Proof. reflexivity. Qed.

Lemma markers_here_some (s g r : str) :
  Re.markers_here s = Some (g, r) <->
  s = START_MARKER ++ g ++ END_MARKER ++ r /\ first_occ END_MARKER g.
Proof.
  unfold Re.markers_here. split.
  - destruct (Py.strip_prefix START_MARKER s) as [x|] eqn:E; [|discriminate].
    apply strip_prefix_some in E. intros H. apply lazy_until_some in H.
    destruct H as [-> F]. now split.
  - intros [-> F]. rewrite strip_prefix_app. now apply lazy_until_intro.
Qed.

Lemma match_here_eq (s : str) :
  Re.match_here s =
  let without :=
    match Re.markers_here s with
    | Some (g, rest) => Some ([], g, rest)
    | None => None
    end in
  match s with
  | c :: s' =>
      if Textwrap.is_blank c then
        match Re.match_here s' with
        | Some (ind, g, rest) => Some (c :: ind, g, rest)
        | None => without
        end
      else without
  | [] => without
  end.
Proof. destruct s; reflexivity. Qed.

Lemma without_some (s ind g r : str) :
  match Re.markers_here s with
  | Some (g, rest) => Some ([], g, rest)
  | None => None
  end = Some (ind, g, r) ->
  s = ind ++ START_MARKER ++ g ++ END_MARKER ++ r
  /\ forallb Textwrap.is_blank ind = true
  /\ first_occ END_MARKER g.
Proof.
  intros H. destruct (Re.markers_here s) as [[g0 r0]|] eqn:E; [|discriminate].
  injection H as <- <- <-. apply markers_here_some in E. destruct E as [-> F].
  now repeat split.
Qed.

Lemma match_here_some (s ind g r : str) :
  Re.match_here s = Some (ind, g, r) ->
  s = ind ++ START_MARKER ++ g ++ END_MARKER ++ r
  /\ forallb Textwrap.is_blank ind = true
  /\ first_occ END_MARKER g.
Proof.
  revert ind g r; induction s as [|c s IH]; intros ind g r;
    rewrite match_here_eq; cbv zeta.
  - apply without_some.
  - destruct (Textwrap.is_blank c) eqn:C; [|apply without_some].
    destruct (Re.match_here s) as [[[ind' g'] r']|] eqn:M; [|apply without_some].
    intros H; injection H as <- <- <-.
    destruct (IH ind' g' r' eq_refl) as (-> & B & F).
    repeat split; [|assumption]. simpl. now rewrite C.
Qed.

Lemma match_here_intro (ind g r : str) :
  forallb Textwrap.is_blank ind = true -> first_occ END_MARKER g ->
  Re.match_here (ind ++ START_MARKER ++ g ++ END_MARKER ++ r) = Some (ind, g, r).
Proof.
  intros B F. induction ind as [|c ind IH]; rewrite match_here_eq; cbv zeta.
  - assert (M : Re.markers_here ([] ++ START_MARKER ++ g ++ END_MARKER ++ r)
                = Some (g, r)) by now apply markers_here_some.
    rewrite M. cbn [app]. rewrite START_head. reflexivity.
  - simpl in B. apply andb_true_iff in B. destruct B as [C B].
    cbn [app]. rewrite C. now rewrite (IH B).
Qed.

(** Where the markers stand, the pattern matches. *)
Lemma match_here_complete (b c : str) :
  Re.match_here (START_MARKER ++ b ++ END_MARKER ++ c) <> None.
Proof.
  rewrite match_here_eq; cbv zeta.
  assert (M : Re.markers_here (START_MARKER ++ b ++ END_MARKER ++ c) <> None).
  { unfold Re.markers_here. rewrite strip_prefix_app. apply lazy_until_complete. }
  destruct (Re.markers_here _) as [[g r]|]; [|contradiction].
  rewrite START_head. cbn [app Textwrap.is_blank]. discriminate.
Qed.

Lemma search_eq (content : str) :
  Re.search content =
  match Re.match_here content with
  | Some (ind, g, rest) => Some (Re.mkFound [] ind g rest)
  | None =>
      match content with
      | [] => None
      | c :: s' =>
          match Re.search s' with
          | Some m => Some (Re.mkFound (c :: Re.before m) (Re.indent m)
                                       (Re.inner m) (Re.after m))
          | None => None
          end
      end
  end.
Proof. destruct content; reflexivity. Qed.

Lemma blank_prefix_START (ind a b : str) :
  forallb Textwrap.is_blank ind = true ->
  ind ++ START_MARKER = a ++ START_MARKER ++ b -> b = [].
Proof.
  intros B E. apply app_eq_app in E. destruct E as (l & [[-> E]|[-> E]]).
  - destruct l as [|x l].
    + apply (f_equal (@length _)) in E. rewrite !length_app in E.
      destruct b; [reflexivity|simpl in E; lia].
    + rewrite forallb_app in B. apply andb_true_iff in B. destruct B as [_ B].
      simpl in B. apply andb_true_iff in B. destruct B as [X _].
      rewrite START_head in E. cbn [app] in E. injection E as E1 _.
      subst x. discriminate.
  - apply (f_equal (@length _)) in E. rewrite !length_app in E.
    destruct b; [reflexivity|simpl in E; lia].
Qed.

Lemma ends_blank_cons (c : char) (s : str) :
  s <> [] -> ends_blank (c :: s) = ends_blank s.
Proof. destruct s; [contradiction|reflexivity]. Qed.

Lemma ends_blank_all (s : str) :
  s <> [] -> forallb Textwrap.is_blank s = true -> ends_blank s = true.
Proof.
  induction s as [|c s IH]; [contradiction|]. intros _ B.
  simpl in B. apply andb_true_iff in B. destruct B as [C B].
  destruct s as [|d s]; [exact C|].
  rewrite ends_blank_cons by discriminate. apply IH; [discriminate|assumption].
Qed.

Lemma search_some (content : str) (m : Re.found) :
  Re.search content = Some m ->
  content = Re.before m ++ Re.indent m ++ START_MARKER ++ Re.inner m
            ++ END_MARKER ++ Re.after m
  /\ forallb Textwrap.is_blank (Re.indent m) = true
  /\ ends_blank (Re.before m) = false
  /\ first_occ START_MARKER (Re.before m ++ Re.indent m)
  /\ first_occ END_MARKER (Re.inner m).
Proof.
  revert m; induction content as [|c s IH]; intros m; rewrite search_eq.
  - destruct (Re.match_here []) as [[[ind g] r]|] eqn:M; [|discriminate].
    intros H; injection H as <-. cbn. apply match_here_some in M.
    destruct M as (E & B & F). repeat split; try assumption.
    intros a b. now apply blank_prefix_START.
  - destruct (Re.match_here (c :: s)) as [[[ind g] r]|] eqn:M.
    + intros H; injection H as <-. cbn. apply match_here_some in M.
      destruct M as (E & B & F). repeat split; try assumption.
      intros a b. now apply blank_prefix_START.
    + destruct (Re.search s) as [m'|] eqn:S; [|discriminate].
      intros H; injection H as <-. cbn [Re.before Re.indent Re.inner Re.after].
      destruct (IH m' eq_refl) as (E & B & EB & FS & FE).
      repeat split; try assumption.
      * cbn [app]. now rewrite E at 1.
      * destruct (Re.before m') as [|d pre] eqn:P.
        -- cbn. destruct (Textwrap.is_blank c) eqn:C; [|reflexivity]. exfalso.
           rewrite match_here_eq in M. cbv zeta in M. rewrite C in M.
           cbn [app] in E. rewrite E in M.
           rewrite match_here_intro in M by assumption. discriminate.
        -- now rewrite ends_blank_cons by discriminate.
      * intros [|x a] b Eq.
        -- exfalso.
           assert (Ec : c :: s = START_MARKER ++ (b ++ Re.inner m')
                                 ++ END_MARKER ++ Re.after m').
           { rewrite E.
             change (c :: Re.before m' ++ Re.indent m' ++ START_MARKER
                       ++ Re.inner m' ++ END_MARKER ++ Re.after m')
               with ((c :: Re.before m') ++ Re.indent m' ++ START_MARKER
                       ++ Re.inner m' ++ END_MARKER ++ Re.after m').
             rewrite (app_assoc (c :: Re.before m')).
             rewrite (app_assoc (_ ++ Re.indent m')).
             rewrite Eq. cbn [app]. now rewrite <- !app_assoc. }
           rewrite Ec in M. now apply match_here_complete in M.
        -- cbn [app] in Eq. injection Eq as _ Eq. now apply (FS a b).
Qed.

Lemma blank_prefix (x y u v : str) :
  x ++ u = y ++ v -> (length x <= length y)%nat ->
  forallb Textwrap.is_blank y = true -> forallb Textwrap.is_blank x = true.
Proof.
  intros E L B. symmetry in E.
  destruct (prefix_of_longer x y v u E L) as (t & ->).
  rewrite forallb_app in B. now apply andb_true_iff in B.
Qed.

Lemma search_intro (pre ind g r : str) :
  forallb Textwrap.is_blank ind = true ->
  ends_blank pre = false ->
  first_occ START_MARKER (pre ++ ind) ->
  first_occ END_MARKER g ->
  Re.search (pre ++ ind ++ START_MARKER ++ g ++ END_MARKER ++ r)
  = Some (Re.mkFound pre ind g r).
Proof.
  intros B EB FS FE. induction pre as [|c pre IH]; rewrite search_eq.
  - cbn [app]. now rewrite match_here_intro.
  - destruct (Re.match_here _) as [[[ind' g'] r']|] eqn:M.
    + exfalso. apply match_here_some in M. destruct M as (E & B' & _).
      assert (L : (length ((c :: pre) ++ ind) <= length ind')%nat).
      { apply (first_occ_earliest START_MARKER _ (g ++ END_MARKER ++ r) _
                 (g' ++ END_MARKER ++ r') FS).
        rewrite <- app_assoc. exact E. }
      assert (Bp : forallb Textwrap.is_blank (c :: pre) = true).
      { apply (blank_prefix _ ind' _ _ E); [|assumption].
        rewrite length_app in L. lia. }
      rewrite ends_blank_all in EB by (assumption || discriminate). discriminate.
    + cbn [app]. rewrite IH.
      * reflexivity.
      * destruct pre as [|d pre]; [reflexivity|].
        now rewrite ends_blank_cons in EB by discriminate.
      * intros a b Eq. apply (FS (c :: a) b). cbn [app]. now rewrite Eq.
Qed.

Lemma search_complete (content : str) : has_markers content -> Re.search content <> None.
Proof.
  intros (a & b & c & ->). induction a as [|x a IH]; rewrite search_eq.
  - cbn [app]. pose proof (match_here_complete b c) as M.
    destruct (Re.match_here _) as [[[ind g] r]|]; [discriminate|contradiction].
  - destruct (Re.match_here _) as [[[ind g] r]|]; [discriminate|].
    cbn [app]. destruct (Re.search _); [discriminate|contradiction].
Qed.

Lemma search_has_markers (content : str) (m : Re.found) :
  Re.search content = Some m -> has_markers content.
Proof.
  intros H. apply search_some in H. destruct H as (E & _).
  exists (Re.before m ++ Re.indent m), (Re.inner m), (Re.after m).
  now rewrite <- app_assoc.
Qed.

Lemma search_none (content : str) : Re.search content = None <-> ~ has_markers content.
Proof.
  split.
  - intros N H. now apply search_complete in H.
  - intros N. destruct (Re.search content) as [m|] eqn:S; [|reflexivity].
    exfalso. apply N. eapply search_has_markers; eassumption.
Qed.

Lemma found_eta (m : Re.found) :
  m = Re.mkFound (Re.before m) (Re.indent m) (Re.inner m) (Re.after m).
Proof. now destruct m. Qed.

(* ================================================================== *)
(** ** Splicing *)

Lemma replacement_lines (ind markup : str) :
  replacement ind markup =
  ind ++ START_MARKER ++ [nl] ++ Py.join [nl] (indented_lines ind markup)
  ++ [nl] ++ ind ++ END_MARKER.
Proof.
  unfold replacement, indented_lines. do 3 f_equal. f_equal. f_equal.
  apply map_ext.
  now intros [|c l].
Qed.

Lemma splice_found (content markup : str) (m : Re.found) :
  Re.search content = Some m ->
  splice content markup =
  Return (Re.before m ++ replacement (Re.indent m) markup ++ Re.after m).
Proof. unfold splice. now intros ->. Qed.

Lemma update_homepage_read (fs : FileSystem) (p : Path) (content markup : str) :
  fs p = Some (File content) -> update_homepage fs p markup = splice content markup.
Proof. unfold update_homepage. now intros ->. Qed.

Lemma split_app_sep (sep : char) (a b : str) :
  Py.split sep (a ++ sep :: b) = Py.split sep a ++ Py.split sep b.
Proof.
  induction a as [|c a IH]; cbn [app Py.split].
  - now rewrite N.eqb_refl.
  - rewrite IH. destruct (c =? sep); [reflexivity|].
    pose proof (split_not_nil sep a) as NE.
    destruct (Py.split sep a); [contradiction|reflexivity].
Qed.

Lemma split_blank (l : str) :
  forallb Textwrap.is_blank l = true -> Py.split nl l = [l].
Proof.
  induction l as [|c l IH]; [reflexivity|]. cbn [forallb Py.split].
  intros H. apply andb_true_iff in H. destruct H as [C B]. rewrite (IH B).
  unfold Textwrap.is_blank in C. destruct (N.eqb_spec c nl) as [->|]; [discriminate|].
  reflexivity.
Qed.

Lemma take_blanks_all (l : str) :
  forallb Textwrap.is_blank l = true -> Textwrap.take_blanks l = l.
Proof.
  induction l as [|c l IH]; [reflexivity|]. cbn [forallb Textwrap.take_blanks].
  intros H. apply andb_true_iff in H. destruct H as [-> B]. now rewrite IH.
Qed.

Lemma at_line_start_inv (pre : str) :
  at_line_start pre = true -> pre = [] \/ exists a, pre = a ++ [nl].
Proof.
  induction pre as [|c pre IH]; [now left|]. intros H. right.
  destruct pre as [|d pre].
  - cbn in H. apply N.eqb_eq in H. subst. now exists [].
  - destruct (IH H) as [E|(a & E)]; [discriminate|].
    exists (c :: a). now rewrite E.
Qed.

(** When only spaces and tabs stand between the start of the line and the
    marker, the [indent] group is the leading whitespace of that line. *)
Lemma line_indent_found (pre ind tail : str) :
  forallb Textwrap.is_blank ind = true ->
  first_occ START_MARKER (pre ++ ind) ->
  at_line_start pre = true ->
  line_indent (pre ++ ind ++ START_MARKER ++ tail) = ind.
Proof.
  intros B F A. unfold line_indent.
  rewrite (app_assoc pre ind). rewrite lazy_until_intro by assumption.
  destruct (at_line_start_inv pre A) as [->|(a & ->)].
  - cbn [app]. rewrite split_blank by assumption. cbn [last].
    now apply take_blanks_all.
  - rewrite <- app_assoc. cbn [app]. rewrite split_app_sep.
    rewrite (split_blank ind) by assumption. rewrite last_last.
    now apply take_blanks_all.
Qed.

(** A pattern without newline lies on one side of a newline. *)
Lemma occurrence_beside_newline (p x y a b : str) :
  p <> [] -> forallb (fun c => negb (c =? nl)) p = true ->
  x ++ nl :: y = a ++ p ++ b ->
  (exists b', x = a ++ p ++ b') \/ (exists a', y = a' ++ p ++ b).
Proof.
  intros NE NL E. apply app_eq_app in E. destruct E as (l & [[-> E]|[-> E]]).
  - symmetry in E. apply app_eq_app in E. destruct E as (l2 & [[-> E]|[-> E]]).
    + left. now exists l2.
    + destruct l2 as [|d l2].
      * left. exists []. now rewrite !app_nil_r.
      * exfalso. injection E as <- _. rewrite forallb_app in NL.
        apply andb_true_iff in NL. destruct NL as [_ NL]. discriminate.
  - destruct l as [|d l].
    + exfalso. destruct p as [|c p]; [contradiction|].
      cbn [app] in E. injection E as <- _. discriminate.
    + right. injection E as _ ->. now exists l.
Qed.

Lemma occurs_join (p : str) (ls : list str) :
  p <> [] -> forallb (fun c => negb (c =? nl)) p = true ->
  occurs p (Py.join [nl] ls) -> exists l, In l ls /\ occurs p l.
Proof.
  intros NE NL. induction ls as [|l ls IH].
  - intros (a & b & E). destruct a; destruct p; try contradiction; discriminate.
  - destruct ls as [|l2 ls].
    + intros O. exists l. split; [now left|exact O].
    + rewrite join_cons2. cbn [app]. intros (a & b & E).
      destruct (occurrence_beside_newline p _ _ a b NE NL E) as [(b' & ->)|(a' & E')].
      * exists (a ++ p ++ b'). split; [now left|]. now exists a, b'.
      * destruct IH as (x & I & O); [now exists a', b|].
        exists x. split; [now right|exact O].
Qed.

Lemma occurs_trans (p l s : str) : occurs p l -> occurs l s -> occurs p s.
Proof.
  intros (a & b & ->) (u & v & ->). exists (u ++ a), (b ++ v).
  now rewrite <- !app_assoc.
Qed.

Lemma blank_prefix_END (ind a b : str) :
  forallb Textwrap.is_blank ind = true ->
  ind ++ END_MARKER = a ++ END_MARKER ++ b -> b = [].
Proof.
  intros B E. apply app_eq_app in E. destruct E as (l & [[-> E]|[-> E]]).
  - destruct l as [|x l].
    + apply (f_equal (@length _)) in E. rewrite !length_app in E.
      destruct b; [reflexivity|simpl in E; lia].
    + rewrite forallb_app in B. apply andb_true_iff in B. destruct B as [_ B].
      simpl in B. apply andb_true_iff in B. destruct B as [X _].
      rewrite END_head in E. cbn [app] in E. injection E as E1 _.
      subst x. discriminate.
  - apply (f_equal (@length _)) in E. rewrite !length_app in E.
    destruct b; [reflexivity|simpl in E; lia].
Qed.

Lemma occurs_END_after_blanks (ind l : str) :
  forallb Textwrap.is_blank ind = true ->
  occurs END_MARKER (ind ++ l) -> occurs END_MARKER l.
Proof.
  intros B (a & b & E). apply app_eq_app in E. destruct E as (x & [[-> E]|[-> E]]).
  - destruct x as [|c x].
    + cbn [app] in E. exists [], b. now rewrite E.
    + exfalso. rewrite forallb_app in B. apply andb_true_iff in B.
      destruct B as [_ B]. simpl in B. apply andb_true_iff in B. destruct B as [X _].
      rewrite END_head in E. cbn [app] in E. injection E as E1 _.
      subst c. discriminate.
  - now exists x, b.
Qed.

Lemma END_not_nil : END_MARKER <> [].
Proof. discriminate. Qed.

Lemma END_one_line : forallb (fun c => negb (c =? nl)) END_MARKER = true.
Proof. reflexivity. Qed.

(** A fragment without the end marker puts none between the markers. *)
Lemma first_END_after_fragment (ind markup : str) :
  forallb Textwrap.is_blank ind = true ->
  ~ occurs END_MARKER markup ->
  first_occ END_MARKER
    ([nl] ++ Py.join [nl] (indented_lines ind markup) ++ [nl] ++ ind).
Proof.
  intros B NO a b E. rewrite <- !app_assoc in E. cbn [app] in E.
  destruct (occurrence_beside_newline END_MARKER [] _ a b END_not_nil END_one_line E)
    as [(b' & E0)|(a' & E1)].
  - destruct a; discriminate.
  - destruct (occurrence_beside_newline END_MARKER _ _ a' b END_not_nil END_one_line E1)
      as [(b' & EJ)|(a2 & E2)].
    + exfalso. apply NO.
      destruct (occurs_join END_MARKER (indented_lines ind markup)
                  END_not_nil END_one_line) as (l & I & O); [now exists a', b'|].
      unfold indented_lines in I. apply in_map_iff in I.
      destruct I as (l0 & <- & I0). destruct l0 as [|c l0].
      * destruct O as (u & v & Ev). destruct u; discriminate.
      * apply occurs_END_after_blanks in O; [|assumption].
        eapply occurs_trans; [exact O|]. now apply splitlines_occurs.
    + now apply (blank_prefix_END ind a2 b).
Qed.

Lemma path_eqb_refl (p : Path) : path_eqb p p = true.
Proof.
  unfold path_eqb. rewrite str_eqb_refl. cbn [andb].
  induction (parts p) as [|x l IH]; [reflexivity|].
  now rewrite str_eqb_refl.
Qed.

Lemma read_back (fs : FileSystem) (p : Path) (text : str) :
  write_text fs p text p = Some (File text).
Proof. unfold write_text. now rewrite path_eqb_refl. Qed.

(** C3. For every document holding the marker pair and every fragment,
    splicing succeeds and replaces one span only: the run of spaces and tabs
    before the first start marker, that marker, the shortest text up to the
    next end marker (newlines included) and that end marker.  The text
    before the span and the text after it are carried over unchanged. *)
Theorem splice_replaces_first_match_only
  (fs : FileSystem) (index_path : Path) (content markup : str) :
  fs index_path = Some (File content) ->
  has_markers content ->
  exists pre ind mid rest,
    content = pre ++ (ind ++ START_MARKER ++ mid ++ END_MARKER) ++ rest
    /\ update_homepage fs index_path markup
       = Return (pre ++ replacement ind markup ++ rest)
    /\ forallb Textwrap.is_blank ind = true
    /\ ends_blank pre = false
    /\ first_occ START_MARKER (pre ++ ind)
    /\ first_occ END_MARKER mid.
Proof.
  intros R H. destruct (Re.search content) as [m|] eqn:S;
    [|now apply search_complete in H].
  destruct (search_some content m S) as (E & B & EB & FS & FE).
  exists (Re.before m), (Re.indent m), (Re.inner m), (Re.after m).
  repeat split; try assumption.
  - rewrite E at 1. now rewrite <- !app_assoc.
  - rewrite (update_homepage_read fs index_path content markup R).
    now apply splice_found.
Qed.

Lemma splice_replaces_first_match_only_witness :
  Sample.disk [] Sample.empty_page Sample.index_html = Some (File Sample.empty_page)
  /\ has_markers Sample.empty_page
  /\ exists pre ind mid rest,
      Sample.empty_page = pre ++ (ind ++ START_MARKER ++ mid ++ END_MARKER) ++ rest
      /\ update_homepage (Sample.disk [] Sample.empty_page) Sample.index_html
           (codes "<ul></ul>")
         = Return (pre ++ replacement ind (codes "<ul></ul>") ++ rest)
      /\ forallb Textwrap.is_blank ind = true
      /\ ends_blank pre = false
      /\ first_occ START_MARKER (pre ++ ind)
      /\ first_occ END_MARKER mid.
Proof.
  assert (M : has_markers Sample.empty_page).
  { exists (codes "<nav>" ++ [nl] ++ codes "  "), ([nl] ++ codes "  "),
      ([nl] ++ codes "</nav>" ++ [nl]). reflexivity. }
  split; [reflexivity|]. split; [exact M|].
  apply (splice_replaces_first_match_only
           (Sample.disk [] Sample.empty_page) Sample.index_html Sample.empty_page
           (codes "<ul></ul>")); [reflexivity|exact M].
Defined.

(** C4 (amended). The indentation reproduced is the run of spaces and
    tabs that stands immediately before the first start marker: it prefixes
    the start marker, the end marker and every non-empty line of the
    fragment, and empty fragment lines stay empty.  It is the leading
    whitespace of the marker's line when nothing else precedes the marker on
    that line. *)
Theorem splice_indentation
  (fs : FileSystem) (index_path : Path) (content markup : str) :
  fs index_path = Some (File content) ->
  has_markers content ->
  exists pre ind mid rest,
    content = pre ++ ind ++ START_MARKER ++ mid ++ END_MARKER ++ rest
    /\ forallb Textwrap.is_blank ind = true
    /\ ends_blank pre = false
    /\ first_occ START_MARKER (pre ++ ind)
    /\ update_homepage fs index_path markup
       = Return (pre ++ (ind ++ START_MARKER) ++ [nl]
                 ++ Py.join [nl] (indented_lines ind markup) ++ [nl]
                 ++ (ind ++ END_MARKER) ++ rest)
    /\ (at_line_start pre = true -> ind = line_indent content).
Proof.
  intros R H. destruct (Re.search content) as [m|] eqn:S;
    [|now apply search_complete in H].
  destruct (search_some content m S) as (E & B & EB & FS & FE).
  exists (Re.before m), (Re.indent m), (Re.inner m), (Re.after m).
  repeat split; try assumption.
  - rewrite (update_homepage_read fs index_path content markup R).
    rewrite (splice_found content markup m S), replacement_lines.
    now rewrite <- !app_assoc.
  - intros A. rewrite E. symmetry. now apply line_indent_found.
Qed.

Lemma splice_indentation_witness :
  Sample.disk [] Sample.empty_page Sample.index_html = Some (File Sample.empty_page)
  /\ has_markers Sample.empty_page
  /\ exists pre ind mid rest,
      Sample.empty_page = pre ++ ind ++ START_MARKER ++ mid ++ END_MARKER ++ rest
      /\ forallb Textwrap.is_blank ind = true
      /\ ends_blank pre = false
      /\ first_occ START_MARKER (pre ++ ind)
      /\ update_homepage (Sample.disk [] Sample.empty_page) Sample.index_html
           (codes "<ul></ul>")
         = Return (pre ++ (ind ++ START_MARKER) ++ [nl]
                   ++ Py.join [nl] (indented_lines ind (codes "<ul></ul>")) ++ [nl]
                   ++ (ind ++ END_MARKER) ++ rest)
      /\ (at_line_start pre = true -> ind = line_indent Sample.empty_page).
Proof.
  assert (M : has_markers Sample.empty_page).
  { exists (codes "<nav>" ++ [nl] ++ codes "  "), ([nl] ++ codes "  "),
      ([nl] ++ codes "</nav>" ++ [nl]). reflexivity. }
  split; [reflexivity|]. split; [exact M|].
  apply (splice_indentation
           (Sample.disk [] Sample.empty_page) Sample.index_html Sample.empty_page
           (codes "<ul></ul>")); [reflexivity|exact M].
Defined.

(** C4 as stated fails: the marker's line starts with a tab, the marker
    itself follows other text and one space; the fragment line and the end
    marker get the space, not the tab that leads the line. *)
Lemma indentation_counterexample :
  update_homepage (Sample.disk [] Sample.inline_page) Sample.index_html (codes "<ul>")
  = Return ([9] ++ codes "<nav> " ++ START_MARKER ++ [nl]
            ++ codes " <ul>" ++ [nl] ++ codes " " ++ END_MARKER ++ codes "</nav>")
  /\ line_indent Sample.inline_page = [9]
  /\ ~ occurs (replacement (line_indent Sample.inline_page) (codes "<ul>"))
              ([9] ++ codes "<nav> " ++ START_MARKER ++ [nl]
               ++ codes " <ul>" ++ [nl] ++ codes " " ++ END_MARKER ++ codes "</nav>").
Proof.
  split; [reflexivity|]. split; [reflexivity|].
  apply not_occurs. reflexivity.
Qed.

(** C2 (amended). For every document holding the marker pair and every
    fragment in which the end marker does not occur, one splice yields a
    document in which the text between the markers is exactly the indented
    fragment on lines of its own, and a second splice of the same fragment
    into that document returns it unchanged. *)
Theorem splice_idempotent
  (fs : FileSystem) (index_path : Path) (content markup : str) :
  fs index_path = Some (File content) ->
  has_markers content ->
  ~ occurs END_MARKER markup ->
  exists once m,
    update_homepage fs index_path markup = Return once
    /\ Re.search once = Some m
    /\ Re.inner m = [nl] ++ Py.join [nl] (indented_lines (Re.indent m) markup)
                    ++ [nl] ++ Re.indent m
    /\ update_homepage (write_text fs index_path once) index_path markup
       = Return once.
Proof.
  intros R H NO. destruct (Re.search content) as [m|] eqn:S;
    [|now apply search_complete in H].
  destruct (search_some content m S) as (E & B & EB & FS & FE).
  set (mid := [nl] ++ Py.join [nl] (indented_lines (Re.indent m) markup)
              ++ [nl] ++ Re.indent m).
  set (once := Re.before m ++ replacement (Re.indent m) markup ++ Re.after m).
  assert (Eo : once = Re.before m ++ Re.indent m ++ START_MARKER ++ mid
                      ++ END_MARKER ++ Re.after m).
  { unfold once, mid. rewrite replacement_lines. now rewrite <- !app_assoc. }
  assert (So : Re.search once
               = Some (Re.mkFound (Re.before m) (Re.indent m) mid (Re.after m))).
  { rewrite Eo. apply search_intro; try assumption.
    now apply first_END_after_fragment. }
  exists once, (Re.mkFound (Re.before m) (Re.indent m) mid (Re.after m)).
  repeat split.
  - rewrite (update_homepage_read fs index_path content markup R).
    now apply splice_found.
  - exact So.
  - rewrite (update_homepage_read _ index_path once markup (read_back _ _ _)).
    now rewrite (splice_found once markup _ So).
Qed.

Lemma splice_idempotent_witness :
  Sample.disk [] Sample.empty_page Sample.index_html = Some (File Sample.empty_page)
  /\ has_markers Sample.empty_page
  /\ ~ occurs END_MARKER (codes "<ul></ul>")
  /\ exists once m,
      update_homepage (Sample.disk [] Sample.empty_page) Sample.index_html
        (codes "<ul></ul>") = Return once
      /\ Re.search once = Some m
      /\ Re.inner m = [nl] ++ Py.join [nl] (indented_lines (Re.indent m) (codes "<ul></ul>"))
                      ++ [nl] ++ Re.indent m
      /\ update_homepage
           (write_text (Sample.disk [] Sample.empty_page) Sample.index_html once)
           Sample.index_html (codes "<ul></ul>")
         = Return once.
Proof.
  assert (M : has_markers Sample.empty_page).
  { exists (codes "<nav>" ++ [nl] ++ codes "  "), ([nl] ++ codes "  "),
      ([nl] ++ codes "</nav>" ++ [nl]). reflexivity. }
  assert (NO : ~ occurs END_MARKER (codes "<ul></ul>")).
  { apply not_occurs. reflexivity. }
  split; [reflexivity|]. split; [exact M|]. split; [exact NO|].
  apply (splice_idempotent
           (Sample.disk [] Sample.empty_page) Sample.index_html Sample.empty_page
           (codes "<ul></ul>")); [reflexivity|exact M|exact NO].
Defined.

(** C2 as stated fails for a fragment that holds the end marker: the
    second splice stops at the marker inside the fragment and leaves the
    rest of the first result behind it. *)
Lemma splice_idempotent_counterexample :
  splice Sample.empty_page (END_MARKER ++ codes "x")
  = Return (Sample.page (codes "  " ++ START_MARKER ++ [nl]
                         ++ codes "  " ++ END_MARKER ++ codes "x" ++ [nl]
                         ++ codes "  " ++ END_MARKER))
  /\ splice (Sample.page (codes "  " ++ START_MARKER ++ [nl]
                          ++ codes "  " ++ END_MARKER ++ codes "x" ++ [nl]
                          ++ codes "  " ++ END_MARKER))
            (END_MARKER ++ codes "x")
     = Return (Sample.page (codes "  " ++ START_MARKER ++ [nl]
                            ++ codes "  " ++ END_MARKER ++ codes "x" ++ [nl]
                            ++ codes "  " ++ END_MARKER ++ codes "x" ++ [nl]
                            ++ codes "  " ++ END_MARKER))
  /\ Sample.page (codes "  " ++ START_MARKER ++ [nl]
                  ++ codes "  " ++ END_MARKER ++ codes "x" ++ [nl]
                  ++ codes "  " ++ END_MARKER)
     <> Sample.page (codes "  " ++ START_MARKER ++ [nl]
                     ++ codes "  " ++ END_MARKER ++ codes "x" ++ [nl]
                     ++ codes "  " ++ END_MARKER ++ codes "x" ++ [nl]
                     ++ codes "  " ++ END_MARKER).
Proof.
  split; [vm_compute; reflexivity|]. split; [vm_compute; reflexivity|].
  apply str_eqb_neq. vm_compute. reflexivity.
Qed.

(* ================================================================== *)
(** ** Sorting the directory listing *)

Lemma str_leb_refl (a : str) : str_leb a a = true.
Proof.
  induction a as [|x a IH]; [reflexivity|]. simpl.
  rewrite N.eqb_refl, IH. apply orb_true_r.
Qed.

Lemma str_leb_total (a b : str) : str_leb a b = false -> str_leb b a = true.
Proof.
  revert b; induction a as [|x a IH]; intros [|y b]; simpl; try discriminate;
    try reflexivity.
  intros H. apply orb_false_iff in H. destruct H as [L H].
  apply N.ltb_ge in L. destruct (N.eqb_spec x y) as [->|N].
  - simpl in H. rewrite N.eqb_refl, (IH b H). apply orb_true_r.
  - assert (Lt : y < x) by lia. apply N.ltb_lt in Lt. now rewrite Lt.
Qed.

Lemma str_leb_trans (a b c : str) :
  str_leb a b = true -> str_leb b c = true -> str_leb a c = true.
Proof.
  revert b c; induction a as [|x a IH]; intros [|y b] [|z c]; simpl;
    try discriminate; try reflexivity.
  intros H1 H2. apply orb_true_iff in H1, H2. apply orb_true_iff.
  destruct H1 as [L1|E1], H2 as [L2|E2]; bool_to_prop.
  - left. apply N.ltb_lt. lia.
  - left. apply N.ltb_lt. lia.
  - left. apply N.ltb_lt. lia.
  - right. subst. rewrite N.eqb_refl. simpl. eapply IH; eassumption.
Qed.

Lemma insert_entry_perm (e : str * node) (l : list (str * node)) :
  Permutation (e :: l) (insert_entry e l).
Proof.
  induction l as [|x l IH]; simpl; [reflexivity|].
  destruct (str_leb (fst e) (fst x)); [reflexivity|].
  rewrite perm_swap. now constructor.
Qed.

Lemma sorted_perm (l : list (str * node)) : Permutation l (sorted l).
Proof.
  induction l as [|e l IH]; simpl; [reflexivity|].
  rewrite <- insert_entry_perm. now constructor.
Qed.

Lemma insert_entry_sorted (e : str * node) (l : list (str * node)) :
  Sorted entry_le l -> Sorted entry_le (insert_entry e l).
Proof.
  induction l as [|x l IH]; simpl; intros S.
  - repeat constructor.
  - destruct (str_leb (fst e) (fst x)) eqn:L.
    + constructor; [assumption|]. now constructor.
    + inversion S as [|? ? S' H]; subst. constructor; [now apply IH|].
      apply str_leb_total in L.
      destruct l as [|y l]; simpl.
      * now constructor.
      * destruct (str_leb (fst e) (fst y)); constructor; [assumption|].
        now inversion H.
Qed.

Lemma sorted_sorted (l : list (str * node)) : Sorted entry_le (sorted l).
Proof.
  induction l as [|e l IH]; simpl; [constructor|]. now apply insert_entry_sorted.
Qed.

Lemma sorted_strongly (l : list (str * node)) : StronglySorted entry_le (sorted l).
Proof.
  apply Sorted_StronglySorted; [|apply sorted_sorted].
  intros x y z. unfold entry_le, str_le. apply str_leb_trans.
Qed.

(* ================================================================== *)
(** ** Discovery *)

Section Discovery.

Context {rt : Runtime}.

Lemma path_name_child (p : Path) (n : str) : path_name (child p n) = n.
Proof. unfold path_name, child. cbn [parts]. apply last_last. Qed.

Lemma project_of_policy (projects_root : Path) (n : str) (md : list (str * json)) :
  project_of (child projects_root n) md =
  mkProject (name_policy n md) (url_policy (child projects_root n) md)
            (description_policy md).
Proof.
  unfold project_of, name_policy, url_policy, description_policy, get, py_or,
    humanized.
  rewrite path_name_child.
  destruct (dict_get (codes "name") md) as [v|];
    destruct (dict_get (codes "url") md) as [u|]; reflexivity.
Qed.

(** A turn of the loop that goes on gave the project of the entry's
    metadata object, or nothing where there is none to read. *)
Lemma scan_entry_return (projects_root : Path) (e : str * node) (r : option Project) :
  scan_entry projects_root e = Return r ->
  r = match metadata_of e with
      | Some md => Some (project_for projects_root (fst e, md))
      | None => None
      end.
Proof.
  unfold scan_entry, metadata_of, project_for.
  destruct (snd e) as [text|listing]; [congruence|].
  destruct (lookup METADATA_FILE listing) as [[text|sub]|]; cbn [read_text bind];
    try congruence.
  destruct (json_loads text) as [[]|]; cbn [fst snd]; congruence.
Qed.

Lemma scan_entry_malformed (projects_root : Path) (e : str * node) (d : str) :
  malformed e d ->
  scan_entry projects_root e = Exit (invalid_json (metadata_path projects_root e) d).
Proof.
  intros (listing & text & E & L & J). unfold scan_entry. rewrite E, L.
  cbn [read_text bind]. now rewrite J.
Qed.

Lemma scan_entry_exit (projects_root : Path) (e : str * node) (msg : str) :
  scan_entry projects_root e = Exit msg ->
  exists d, malformed e d /\ msg = invalid_json (metadata_path projects_root e) d.
Proof.
  unfold scan_entry, malformed.
  destruct (snd e) as [text|listing] eqn:E; [discriminate|].
  destruct (lookup METADATA_FILE listing) as [[text|sub]|] eqn:L;
    cbn [read_text bind]; try discriminate.
  destruct (json_loads text) as [[]|d] eqn:J; try discriminate.
  intros H; injection H as <-. exists d. split; [|reflexivity].
  now exists listing, text.
Qed.

Lemma discover_loop_app (projects_root : Path) (a b : list (str * node))
      (found : list Project) :
  discover_loop projects_root (a ++ b) found =
  bind (discover_loop projects_root a found) (discover_loop projects_root b).
Proof.
  revert found; induction a as [|e a IH]; intros found; [reflexivity|].
  cbn [app discover_loop].
  destruct (scan_entry projects_root e) as [[p|]| |]; cbn [bind];
    auto.
Qed.

Lemma discover_loop_return (projects_root : Path) (es : list (str * node))
      (found ps : list Project) :
  discover_loop projects_root es found = Return ps ->
  ps = found ++ map (project_for projects_root) (with_metadata es).
Proof.
  revert found; induction es as [|e es IH]; intros found; cbn [discover_loop].
  - intros H; injection H as <-. cbn. now rewrite app_nil_r.
  - destruct (scan_entry projects_root e) as [r| |] eqn:S; cbn [bind];
      try discriminate.
    apply scan_entry_return in S. unfold with_metadata. cbn [flat_map].
    fold (with_metadata es).
    destruct (metadata_of e) as [md|]; subst r.
    + intros H. apply IH in H. rewrite H. rewrite <- app_assoc. reflexivity.
    + apply IH.
Qed.

Lemma discover_loop_exit (projects_root : Path) (es : list (str * node))
      (found : list Project) (msg : str) :
  discover_loop projects_root es found = Exit msg ->
  exists e d, In e es /\ malformed e d
              /\ msg = invalid_json (metadata_path projects_root e) d.
Proof.
  revert found; induction es as [|e es IH]; intros found; cbn [discover_loop];
    [discriminate|].
  destruct (scan_entry projects_root e) as [r| |] eqn:S; cbn [bind].
  - intros H.
    assert (X : exists e0 d, In e0 es /\ malformed e0 d
                /\ msg = invalid_json (metadata_path projects_root e0) d)
      by (destruct r; eapply IH; eassumption).
    destruct X as (e0 & d & I & M & E). exists e0, d. now repeat split; [right|..].
  - intros H; injection H as <-. apply scan_entry_exit in S.
    destruct S as (d & M & E). exists e, d. now repeat split; [left|..].
  - discriminate.
Qed.

(** With a malformed metadata file anywhere in the listing the loop
    does not return. *)
Lemma discover_loop_malformed (projects_root : Path) (es : list (str * node))
      (found : list Project) (bad : str * node) (d : str) :
  In bad es -> malformed bad d ->
  fatal (discover_loop projects_root es found) = true.
Proof.
  revert found; induction es as [|e es IH]; intros found I M; [contradiction|].
  cbn [discover_loop]. destruct I as [->|I].
  - now rewrite (scan_entry_malformed projects_root bad d M).
  - destruct (scan_entry projects_root e) as [[p|]| |]; cbn [bind];
      try reflexivity; now apply IH.
Qed.

Lemma with_metadata_in (es : list (str * node)) (n : str) (md : list (str * json)) :
  In (n, md) (with_metadata es) <->
  exists e, In e es /\ fst e = n /\ metadata_of e = Some md.
Proof.
  unfold with_metadata. rewrite in_flat_map. split.
  - intros (e & I & H). exists e. split; [assumption|].
    destruct (metadata_of e) as [md'|]; [|contradiction].
    destruct H as [H|[]]. now injection H as <- <-.
  - intros (e & I & <- & M). exists e. split; [assumption|].
    rewrite M. now left.
Qed.

Lemma with_metadata_sorted (es : list (str * node)) :
  StronglySorted entry_le es -> StronglySorted entry_le (with_metadata es).
Proof.
  induction 1 as [|e es S IH F]; [constructor|].
  unfold with_metadata. cbn [flat_map]. fold (with_metadata es).
  destruct (metadata_of e) as [md|]; [|assumption].
  cbn [app]. constructor; [assumption|].
  apply Forall_forall. intros [n md'] I. apply with_metadata_in in I.
  destruct I as (x & I & <- & _). rewrite Forall_forall in F.
  exact (F x I).
Qed.

End Discovery.

(* ================================================================== *)
(** ** The lines of the rendered list *)

Lemma join_app (sep : str) (a b : list str) :
  a <> [] -> b <> [] ->
  Py.join sep (a ++ b) = Py.join sep a ++ sep ++ Py.join sep b.
Proof.
  intros NA NB. induction a as [|x a IH]; [contradiction|].
  destruct a as [|y a].
  - cbn [app]. destruct b as [|z b]; [contradiction|reflexivity].
  - change ((x :: y :: a) ++ b) with (x :: y :: (a ++ b)).
    rewrite !join_cons2. change (y :: a ++ b) with ((y :: a) ++ b).
    rewrite IH by discriminate. now rewrite <- !app_assoc.
Qed.

Lemma join_concat (sep : str) (lss : list (list str)) :
  Forall (fun ls => ls <> []) lss ->
  Py.join sep (map (Py.join sep) lss) = Py.join sep (concat lss).
Proof.
  induction 1 as [|ls lss N F IH]; [reflexivity|].
  destruct lss as [|ls2 lss].
  - cbn. now rewrite app_nil_r.
  - cbn [map] in *. rewrite join_cons2. cbn [concat] in *.
    rewrite join_app; [now rewrite IH|assumption|].
    inversion F; subst. destruct ls2; [contradiction|discriminate].
Qed.

Lemma indent_block_lines (text : str) :
  indent_block text 2 = Py.join [nl] (item_lines text).
Proof.
  unfold indent_block, item_lines. f_equal. apply map_ext.
  intros [|c l]; [|reflexivity]. cbn [nonempty]. now rewrite app_nil_r.
Qed.

Lemma break_free_app (a b : str) :
  break_free a = true -> break_free b = true -> break_free (a ++ b) = true.
Proof. unfold break_free. intros A B. now rewrite forallb_app, A, B. Qed.

Lemma item_lines_clean (text : str) :
  Forall (fun l => break_free l = true /\ l <> []) (item_lines text).
Proof.
  unfold item_lines. apply Forall_forall. intros l I. apply in_map_iff in I.
  destruct I as (x & <- & I). split; [|discriminate].
  apply break_free_app; [reflexivity|].
  pose proof (splitlines_break_free text) as F. rewrite Forall_forall in F.
  now apply F.
Qed.

Lemma item_lines_not_nil (text : str) : text <> [] -> item_lines text <> [].
Proof.
  intros N E. unfold item_lines in E. apply map_eq_nil in E.
  now apply splitlines_nil in E.
Qed.

Lemma render_items_return (ps : list Project) (items : list str) :
  render_items ps = Return items ->
  exists texts,
    Forall2 (fun p t => nav_item p = Return t) ps texts
    /\ items = map (fun t => indent_block t 2) texts.
Proof.
  revert items; induction ps as [|p ps IH]; intros items; cbn [render_items].
  - intros H; injection H as <-. now exists [].
  - destruct (nav_item p) as [t| |] eqn:N; cbn [bind]; try discriminate.
    destruct (render_items ps) as [rest| |]; cbn [bind]; try discriminate.
    intros H; injection H as <-. destruct (IH rest eq_refl) as (texts & F & ->).
    exists (t :: texts). split; [now constructor|reflexivity].
Qed.

Lemma rendered_lines (ps : list Project) (texts : list str) :
  Forall2 (fun p t => nav_item p = Return t) ps texts ->
  Py.splitlines (Py.join [nl] (map (fun t => indent_block t 2) texts))
  = flat_map item_lines texts.
Proof.
  intros F.
  assert (NE : Forall (fun ls => ls <> []) (map item_lines texts)).
  { apply Forall_forall. intros ls I. apply in_map_iff in I.
    destruct I as (t & <- & I). apply item_lines_not_nil.
    clear -F I. induction F as [|p t0 ps texts N F IH]; [contradiction|].
    destruct I as [->|I]; [now apply (nav_item_nonempty p)|now apply IH]. }
  rewrite (map_ext _ (fun t => Py.join [nl] (item_lines t)))
    by apply indent_block_lines.
  rewrite <- (map_map item_lines (Py.join [nl])).
  rewrite join_concat by assumption. rewrite <- flat_map_concat_map.
  apply splitlines_join. apply Forall_forall. intros l I.
  apply in_flat_map in I. destruct I as (t & _ & I).
  pose proof (item_lines_clean t) as C. rewrite Forall_forall in C. now apply C.
Qed.

(** The list markup, line by line: the opening tag, the lines of each
    item in the order of the projects, the closing tag. *)
Lemma markup_lines (ps : list Project) (fragment : str) :
  ps <> [] ->
  build_navigation_markup ps = Return fragment ->
  exists texts,
    Forall2 (fun p t => nav_item p = Return t) ps texts
    /\ fragment = Py.join [nl] (LIST_OPEN :: flat_map item_lines texts ++ [LIST_CLOSE]).
Proof.
  intros NE. destruct ps as [|p ps]; [contradiction|].
  unfold build_navigation_markup.
  destruct (render_items (p :: ps)) as [items| |] eqn:R; cbn [bind]; try discriminate.
  intros H; injection H as <-.
  destruct (render_items_return _ _ R) as (texts & F & ->).
  exists texts. split; [assumption|].
  pose proof (rendered_lines _ _ F) as L. f_equal.
  destruct (Py.join [nl] (map (fun t => indent_block t 2) texts)) as [|c s] eqn:J;
    cbn [Py.truthy_str nonempty].
  - cbn in L. rewrite <- L. reflexivity.
  - rewrite L. reflexivity.
Qed.

(* ================================================================== *)
(** ** Discovery, rendering and the run as a whole *)

Lemma discover_listing {rt : Runtime} (fs : FileSystem) (root : Path)
      (entries : list (str * node)) :
  fs root = Some (Dir entries) ->
  discover_projects fs root = discover_loop root (sorted entries) [].
Proof. unfold discover_projects. now intros ->. Qed.

Lemma discover_return {rt : Runtime} (fs : FileSystem) (root : Path)
      (entries : list (str * node)) (ps : list Project) :
  fs root = Some (Dir entries) ->
  discover_projects fs root = Return ps ->
  ps = map (project_for root) (with_metadata (sorted entries)).
Proof.
  intros R D. rewrite (discover_listing fs root entries R) in D.
  now apply discover_loop_return in D.
Qed.

Lemma main_discover_exit {rt : Runtime} (fs : FileSystem) (args : Args) (msg : str) :
  discover_projects fs (projects args) = Exit msg ->
  main fs args = mkRun (Exit msg) [] [].
Proof. unfold main. now intros ->. Qed.

Lemma main_discover_raise {rt : Runtime} (fs : FileSystem) (args : Args) (e : exn) :
  discover_projects fs (projects args) = Raise e ->
  main fs args = mkRun (Raise e) [] [].
Proof. unfold main. now intros ->. Qed.

(** C5 (amended). Every discovered project comes from a directory of the
    root with a metadata object, and its name is the metadata's [name] when
    that key holds a true value (a non-empty string) and otherwise the
    directory name with hyphens replaced by spaces and title-cased; its url
    is the metadata's [url] when that key holds a true value and otherwise
    the directory's path with a trailing slash; its description is the
    metadata's [description], or [None] when the key is absent. *)
Theorem discovered_fields {rt : Runtime} (fs : FileSystem) (root : Path)
        (entries : list (str * node)) (ps : list Project) (p : Project) :
  fs root = Some (Dir entries) ->
  discover_projects fs root = Return ps ->
  In p ps ->
  exists e md,
    In e entries
    /\ metadata_of e = Some md
    /\ name p = name_policy (fst e) md
    /\ url p = url_policy (child root (fst e)) md
    /\ description p = description_policy md.
Proof.
  intros R D I. rewrite (discover_return fs root entries ps R D) in I.
  apply in_map_iff in I. destruct I as ([n md] & <- & I).
  apply with_metadata_in in I. destruct I as (e & Ie & <- & M).
  exists e, md. split.
  - eapply Permutation_in; [symmetry; apply sorted_perm|exact Ie].
  - split; [exact M|]. unfold project_for. cbn [fst snd].
    rewrite project_of_policy. now cbn.
Qed.

Lemma discovered_fields_witness :
  Sample.disk Sample.three_projects Sample.empty_page Sample.projects_root
  = Some (Dir Sample.three_projects)
  /\ discover_projects (rt := Sample.runtime)
       (Sample.disk Sample.three_projects Sample.empty_page) Sample.projects_root
     = Return [typed_project (codes "A Proj") (codes "projects/a-proj/") None;
               typed_project (codes "B Proj") (codes "projects/b-proj/") None;
               typed_project (codes "C Proj") (codes "projects/c-proj/") None]
  /\ exists e md,
      In e Sample.three_projects
      /\ metadata_of (rt := Sample.runtime) e = Some md
      /\ JStr (codes "B Proj") = name_policy (rt := Sample.runtime) (fst e) md
      /\ JStr (codes "projects/b-proj/")
         = url_policy (child Sample.projects_root (fst e)) md
      /\ JNull = description_policy md.
Proof.
  split; [reflexivity|]. split; [reflexivity|].
  apply (discovered_fields (rt := Sample.runtime)
           (Sample.disk Sample.three_projects Sample.empty_page)
           Sample.projects_root Sample.three_projects
           [typed_project (codes "A Proj") (codes "projects/a-proj/") None;
            typed_project (codes "B Proj") (codes "projects/b-proj/") None;
            typed_project (codes "C Proj") (codes "projects/c-proj/") None]
           (typed_project (codes "B Proj") (codes "projects/b-proj/") None));
    [reflexivity|reflexivity|simpl; auto].
Defined.

(** C5 as stated fails: the metadata holds the key [name] with the empty
    string as its value, and the project is named after the directory. *)
Lemma name_fallback_counterexample :
  Sample.loads Sample.empty_name = Decoded (JObj [(codes "name", JStr [])])
  /\ discover_projects (rt := Sample.runtime)
       (Sample.disk [Sample.project_dir "a-proj" Sample.empty_name] Sample.empty_page)
       Sample.projects_root
     = Return [mkProject (JStr (codes "A Proj")) (JStr (codes "projects/a-proj/")) JNull]
  /\ JStr (codes "A Proj") <> JStr [].
Proof. split; [reflexivity|]. split; [reflexivity|discriminate]. Qed.

(** C6. Discovery returns the projects of the directories that hold a
    metadata object, in ascending lexicographic order of the directory
    names, and rendering emits the opening tag, then the lines of one list
    item per project in that same order, then the closing tag. *)
Theorem discovery_and_rendering_order {rt : Runtime} (fs : FileSystem) (root : Path)
        (entries : list (str * node)) (ps : list Project) (fragment : str) :
  fs root = Some (Dir entries) ->
  discover_projects fs root = Return ps ->
  ps <> [] ->
  build_navigation_markup ps = Return fragment ->
  exists dirs texts,
    ps = map (project_for root) dirs
    /\ StronglySorted str_le (map fst dirs)
    /\ (forall n md, In (n, md) dirs <->
                     exists e, In e entries /\ fst e = n /\ metadata_of e = Some md)
    /\ Forall2 (fun p t => nav_item p = Return t) ps texts
    /\ fragment = Py.join [nl] (LIST_OPEN :: flat_map item_lines texts ++ [LIST_CLOSE]).
Proof.
  intros R D NE B.
  destruct (markup_lines ps fragment NE B) as (texts & F & E).
  exists (with_metadata (sorted entries)), texts.
  split; [now apply (discover_return fs root entries)|].
  split.
  { pose proof (with_metadata_sorted _ (sorted_strongly entries)) as S.
    induction S as [|d ds S IH Fd]; [constructor|].
    cbn [map]. constructor; [assumption|].
    apply Forall_forall. intros n I. apply in_map_iff in I.
    destruct I as (d' & <- & I). rewrite Forall_forall in Fd. exact (Fd d' I). }
  split; [|now split].
  intros n md. rewrite with_metadata_in. split.
  - intros (e & I & H). exists e. split; [|assumption].
    eapply Permutation_in; [symmetry; apply sorted_perm|exact I].
  - intros (e & I & H). exists e. split; [|assumption].
    eapply Permutation_in; [apply sorted_perm|exact I].
Qed.

Lemma discovery_and_rendering_order_witness :
  Sample.disk Sample.three_projects Sample.empty_page Sample.projects_root
  = Some (Dir Sample.three_projects)
  /\ discover_projects (rt := Sample.runtime)
       (Sample.disk Sample.three_projects Sample.empty_page) Sample.projects_root
     = Return [typed_project (codes "A Proj") (codes "projects/a-proj/") None;
               typed_project (codes "B Proj") (codes "projects/b-proj/") None;
               typed_project (codes "C Proj") (codes "projects/c-proj/") None]
  /\ build_navigation_markup
       [typed_project (codes "A Proj") (codes "projects/a-proj/") None;
        typed_project (codes "B Proj") (codes "projects/b-proj/") None;
        typed_project (codes "C Proj") (codes "projects/c-proj/") None]
     = Return (Py.join [nl]
         [LIST_OPEN;
          codes "  <li>";
          codes "    <a href=" ++ [dq] ++ codes "projects/a-proj/" ++ [dq] ++ codes ">A Proj</a>";
          codes "  ";
          codes "  </li>";
          codes "  <li>";
          codes "    <a href=" ++ [dq] ++ codes "projects/b-proj/" ++ [dq] ++ codes ">B Proj</a>";
          codes "  ";
          codes "  </li>";
          codes "  <li>";
          codes "    <a href=" ++ [dq] ++ codes "projects/c-proj/" ++ [dq] ++ codes ">C Proj</a>";
          codes "  ";
          codes "  </li>";
          LIST_CLOSE])
  /\ exists dirs texts,
      [typed_project (codes "A Proj") (codes "projects/a-proj/") None;
       typed_project (codes "B Proj") (codes "projects/b-proj/") None;
       typed_project (codes "C Proj") (codes "projects/c-proj/") None]
      = map (project_for (rt := Sample.runtime) Sample.projects_root) dirs
      /\ StronglySorted str_le (map fst dirs)
      /\ (forall n md, In (n, md) dirs <->
                       exists e, In e Sample.three_projects /\ fst e = n
                                 /\ metadata_of (rt := Sample.runtime) e = Some md)
      /\ Forall2 (fun p t => nav_item p = Return t)
           [typed_project (codes "A Proj") (codes "projects/a-proj/") None;
            typed_project (codes "B Proj") (codes "projects/b-proj/") None;
            typed_project (codes "C Proj") (codes "projects/c-proj/") None] texts
      /\ Py.join [nl]
           [LIST_OPEN;
            codes "  <li>";
            codes "    <a href=" ++ [dq] ++ codes "projects/a-proj/" ++ [dq] ++ codes ">A Proj</a>";
            codes "  ";
            codes "  </li>";
            codes "  <li>";
            codes "    <a href=" ++ [dq] ++ codes "projects/b-proj/" ++ [dq] ++ codes ">B Proj</a>";
            codes "  ";
            codes "  </li>";
            codes "  <li>";
            codes "    <a href=" ++ [dq] ++ codes "projects/c-proj/" ++ [dq] ++ codes ">C Proj</a>";
            codes "  ";
            codes "  </li>";
            LIST_CLOSE]
         = Py.join [nl] (LIST_OPEN :: flat_map item_lines texts ++ [LIST_CLOSE]).
Proof.
  split; [reflexivity|]. split; [reflexivity|]. split; [reflexivity|].
  apply (discovery_and_rendering_order (rt := Sample.runtime)
           (Sample.disk Sample.three_projects Sample.empty_page)
           Sample.projects_root Sample.three_projects);
    [reflexivity|reflexivity|discriminate|reflexivity].
Defined.

Lemma scan_entry_not_object {rt : Runtime} (projects_root : Path) (e : str * node)
      (listing : list (str * node)) (text : str) (v : json) :
  snd e = Dir listing ->
  lookup METADATA_FILE listing = Some (File text) ->
  json_loads text = Decoded v ->
  (forall md, v <> JObj md) ->
  scan_entry projects_root e = Raise AttributeError.
Proof.
  intros E L J N. unfold scan_entry. rewrite E, L. cbn [read_text bind].
  rewrite J. destruct v; try reflexivity. now destruct (N members).
Qed.

(** C7 (amended). When a directory of the root holds a malformed
    metadata file the run ends abnormally with a non-zero status, discovery
    returns no list of projects, nothing is printed and nothing is written.
    When the run ends with [SystemExit], the message is [Invalid JSON in],
    the path of a malformed metadata file and the parse error of that file;
    it is the given file's path and error when every entry sorted before it
    was scanned without failure. *)
Theorem malformed_metadata_aborts {rt : Runtime} (fs : FileSystem) (args : Args)
        (entries : list (str * node)) (bad : str * node) (detail : str) :
  fs (projects args) = Some (Dir entries) ->
  In bad entries ->
  malformed bad detail ->
  fatal (discover_projects fs (projects args)) = true
  /\ fatal (status (main fs args)) = true
  /\ stdout (main fs args) = []
  /\ written (main fs args) = []
  /\ (forall msg, status (main fs args) = Exit msg ->
        exists e d, In e entries /\ malformed e d
                    /\ msg = invalid_json (metadata_path (projects args) e) d)
  /\ (forall before after found,
        sorted entries = before ++ bad :: after ->
        discover_loop (projects args) before [] = Return found ->
        status (main fs args)
        = Exit (invalid_json (metadata_path (projects args) bad) detail)).
Proof.
  intros R I M.
  assert (Is : In bad (sorted entries))
    by (eapply Permutation_in; [apply sorted_perm|exact I]).
  pose proof (discover_loop_malformed (projects args) (sorted entries) [] bad detail
                Is M) as F.
  rewrite <- (discover_listing fs (projects args) entries R) in F.
  destruct (discover_projects fs (projects args)) as [ps|msg|e] eqn:O;
    [discriminate| |];
    pose proof (discover_listing fs (projects args) entries R) as D.
  - rewrite (main_discover_exit fs args msg O). cbn [status stdout written fatal].
    repeat split; try reflexivity.
    + intros msg' H. injection H as <-. rewrite D in O.
      apply discover_loop_exit in O. destruct O as (e & d & Ie & Me & E).
      exists e, d. split; [|now split].
      eapply Permutation_in; [symmetry; apply sorted_perm|exact Ie].
    + intros before after found S L. rewrite D, S, discover_loop_app, L in O.
      cbn [bind discover_loop] in O.
      rewrite (scan_entry_malformed (projects args) bad detail M) in O.
      cbn [bind] in O. congruence.
  - rewrite (main_discover_raise fs args e O). cbn [status stdout written fatal].
    repeat split; try reflexivity.
    + intros msg H. discriminate.
    + intros before after found S L. exfalso.
      rewrite D, S, discover_loop_app, L in O. cbn [bind discover_loop] in O.
      rewrite (scan_entry_malformed (projects args) bad detail M) in O.
      discriminate.
Qed.

Lemma malformed_metadata_aborts_witness :
  Sample.disk [Sample.broken] Sample.empty_page (projects (Sample.args false))
  = Some (Dir [Sample.broken])
  /\ In Sample.broken [Sample.broken]
  /\ malformed (rt := Sample.runtime) Sample.broken (codes "Expecting value")
  /\ fatal (discover_projects (rt := Sample.runtime)
              (Sample.disk [Sample.broken] Sample.empty_page)
              (projects (Sample.args false))) = true
  /\ fatal (status (main (rt := Sample.runtime)
                      (Sample.disk [Sample.broken] Sample.empty_page)
                      (Sample.args false))) = true
  /\ stdout (main (rt := Sample.runtime)
               (Sample.disk [Sample.broken] Sample.empty_page) (Sample.args false)) = []
  /\ written (main (rt := Sample.runtime)
                (Sample.disk [Sample.broken] Sample.empty_page) (Sample.args false)) = []
  /\ (forall msg,
        status (main (rt := Sample.runtime)
                  (Sample.disk [Sample.broken] Sample.empty_page) (Sample.args false))
        = Exit msg ->
        exists e d, In e [Sample.broken] /\ malformed (rt := Sample.runtime) e d
                    /\ msg = invalid_json
                               (metadata_path (projects (Sample.args false)) e) d)
  /\ (forall before after found,
        sorted [Sample.broken] = before ++ Sample.broken :: after ->
        discover_loop (rt := Sample.runtime) (projects (Sample.args false)) before []
        = Return found ->
        status (main (rt := Sample.runtime)
                  (Sample.disk [Sample.broken] Sample.empty_page) (Sample.args false))
        = Exit (invalid_json
                  (metadata_path (projects (Sample.args false)) Sample.broken)
                  (codes "Expecting value"))).
Proof.
  assert (M : malformed (rt := Sample.runtime) Sample.broken (codes "Expecting value")).
  { exists [(METADATA_FILE, File (codes "{"))], (codes "{"). now repeat split. }
  split; [reflexivity|]. split; [now left|]. split; [exact M|].
  apply (malformed_metadata_aborts (rt := Sample.runtime)
           (Sample.disk [Sample.broken] Sample.empty_page) (Sample.args false)
           [Sample.broken] Sample.broken (codes "Expecting value"));
    [reflexivity|now left|exact M].
Defined.

(** C7 as stated fails: the directory [a] holds a JSON array and the
    directory [b] a malformed file; the run ends on [a] with an
    [AttributeError], and no message names [b] or its parse error. *)
Lemma malformed_metadata_counterexample :
  malformed (rt := Sample.runtime) Sample.broken (codes "Expecting value")
  /\ status (main (rt := Sample.runtime)
               (Sample.disk [Sample.array; Sample.broken] Sample.empty_page)
               (Sample.args false))
     = Raise AttributeError
  /\ forall msg,
      status (main (rt := Sample.runtime)
                (Sample.disk [Sample.array; Sample.broken] Sample.empty_page)
                (Sample.args false))
      <> Exit msg.
Proof.
  split.
  - exists [(METADATA_FILE, File (codes "{"))], (codes "{"). now repeat split.
  - split; [reflexivity|]. intros msg. discriminate.
Qed.

(** C8 (amended). In a run that is not a dry run, when the target
    document does not hold the start marker followed by the end marker,
    [update_homepage] raises [SystemExit] with the message that the markers
    could not be found, whatever the fragment; the run ends abnormally with
    a non-zero status and writes nothing; and its diagnostic is that message
    whenever discovery and rendering completed. *)
Theorem missing_markers_abort {rt : Runtime} (fs : FileSystem) (args : Args)
        (content : str) :
  dry_run args = false ->
  fs (index args) = Some (File content) ->
  ~ has_markers content ->
  (forall markup, update_homepage fs (index args) markup = Exit MARKERS_NOT_FOUND)
  /\ fatal (status (main fs args)) = true
  /\ written (main fs args) = []
  /\ (forall ps markup,
        discover_projects fs (projects args) = Return ps ->
        build_navigation_markup ps = Return markup ->
        status (main fs args) = Exit MARKERS_NOT_FOUND).
Proof.
  intros Dry R N.
  assert (U : forall markup, update_homepage fs (index args) markup
                             = Exit MARKERS_NOT_FOUND).
  { intros markup. rewrite (update_homepage_read fs (index args) content markup R).
    unfold splice. apply search_none in N. now rewrite N. }
  split; [exact U|]. unfold main.
  destruct (discover_projects fs (projects args)) as [ps| |];
    [|repeat split; try reflexivity; intros; discriminate..].
  destruct (build_navigation_markup ps) as [markup| |] eqn:B;
    [|repeat split; try reflexivity;
      intros ps0 mk H1 H2; injection H1 as <-; congruence..].
  rewrite Dry, U. repeat split.
Qed.

Lemma missing_markers_abort_witness :
  dry_run (Sample.args false) = false
  /\ Sample.disk [] Sample.no_marker_page (index (Sample.args false))
     = Some (File Sample.no_marker_page)
  /\ ~ has_markers Sample.no_marker_page
  /\ (forall markup,
        update_homepage (Sample.disk [] Sample.no_marker_page)
          (index (Sample.args false)) markup = Exit MARKERS_NOT_FOUND)
  /\ fatal (status (main (rt := Sample.runtime)
                      (Sample.disk [] Sample.no_marker_page) (Sample.args false)))
     = true
  /\ written (main (rt := Sample.runtime)
                (Sample.disk [] Sample.no_marker_page) (Sample.args false)) = []
  /\ (forall ps markup,
        discover_projects (rt := Sample.runtime)
          (Sample.disk [] Sample.no_marker_page) (projects (Sample.args false))
        = Return ps ->
        build_navigation_markup ps = Return markup ->
        status (main (rt := Sample.runtime)
                  (Sample.disk [] Sample.no_marker_page) (Sample.args false))
        = Exit MARKERS_NOT_FOUND).
Proof.
  assert (N : ~ has_markers Sample.no_marker_page).
  { apply search_none. reflexivity. }
  split; [reflexivity|]. split; [reflexivity|]. split; [exact N|].
  apply (missing_markers_abort (rt := Sample.runtime)
           (Sample.disk [] Sample.no_marker_page) (Sample.args false)
           Sample.no_marker_page); [reflexivity|reflexivity|exact N].
Defined.

(** C8 as stated fails: the document holds no markers, the run is not a
    dry run, and the diagnostic is the one of the malformed metadata file
    met first, not the one about the markers. *)
Lemma missing_markers_counterexample :
  dry_run (Sample.args false) = false
  /\ ~ has_markers Sample.no_marker_page
  /\ status (main (rt := Sample.runtime)
               (Sample.disk [Sample.broken] Sample.no_marker_page) (Sample.args false))
     = Exit (codes "Invalid JSON in projects/b/project.json: Expecting value")
  /\ status (main (rt := Sample.runtime)
               (Sample.disk [Sample.broken] Sample.no_marker_page) (Sample.args false))
     <> Exit MARKERS_NOT_FOUND.
Proof.
  split; [reflexivity|]. split; [apply search_none; reflexivity|].
  split; [reflexivity|]. discriminate.
Qed.

(** C9. When the projects root does not exist, discovery returns the
    empty sequence and raises nothing, and rendering the empty sequence
    yields the fixed paragraph saying that no projects are published: a dry
    run prints that paragraph and ends with status 0. *)
Theorem missing_root_renders_notice {rt : Runtime} (fs : FileSystem) (args : Args) :
  fs (projects args) = None ->
  discover_projects fs (projects args) = Return []
  /\ build_navigation_markup [] = Return NO_PROJECTS
  /\ (dry_run args = true -> main fs args = mkRun (Return 0%Z) [NO_PROJECTS] []).
Proof.
  intros R.
  assert (D : discover_projects fs (projects args) = Return [])
    by (unfold discover_projects; now rewrite R).
  assert (B : build_navigation_markup [] = Return NO_PROJECTS)
    by (cbn [build_navigation_markup]; now rewrite no_projects_text).
  repeat split; try assumption.
  intros Dry. unfold main. now rewrite D, B, Dry.
Qed.

Lemma missing_root_renders_notice_witness :
  (fun _ : Path => @None node) (projects (Sample.args true)) = None
  /\ discover_projects (rt := Sample.runtime) (fun _ => None)
       (projects (Sample.args true)) = Return []
  /\ build_navigation_markup [] = Return NO_PROJECTS
  /\ (dry_run (Sample.args true) = true ->
      main (rt := Sample.runtime) (fun _ => None) (Sample.args true)
      = mkRun (Return 0%Z) [NO_PROJECTS] []).
Proof.
  split; [reflexivity|].
  apply (missing_root_renders_notice (rt := Sample.runtime) (fun _ => None)
           (Sample.args true)). reflexivity.
Defined.

(** C10. A metadata file that holds valid JSON other than an object (an
    array, a string, a number, [null]) does not take the exit of the
    malformed-metadata diagnostic: once the scan reaches it, discovery
    raises [AttributeError] at the first field access and the run ends with
    that exception, with nothing printed and nothing written. *)
Theorem non_object_metadata_raises {rt : Runtime} (fs : FileSystem) (args : Args)
        (entries before after : list (str * node)) (e : str * node)
        (listing : list (str * node)) (text : str) (v : json)
        (found : list Project) :
  fs (projects args) = Some (Dir entries) ->
  sorted entries = before ++ e :: after ->
  discover_loop (projects args) before [] = Return found ->
  snd e = Dir listing ->
  lookup METADATA_FILE listing = Some (File text) ->
  json_loads text = Decoded v ->
  (forall md, v <> JObj md) ->
  discover_projects fs (projects args) = Raise AttributeError
  /\ main fs args = mkRun (Raise AttributeError) [] []
  /\ forall msg, status (main fs args) <> Exit msg.
Proof.
  intros R S L E K J N.
  assert (D : discover_projects fs (projects args) = Raise AttributeError).
  { rewrite (discover_listing fs (projects args) entries R), S, discover_loop_app, L.
    cbn [bind discover_loop].
    now rewrite (scan_entry_not_object (projects args) e listing text v E K J N). }
  split; [exact D|]. rewrite (main_discover_raise fs args AttributeError D).
  split; [reflexivity|]. intros msg. discriminate.
Qed.

Lemma non_object_metadata_raises_witness :
  Sample.disk [Sample.array] Sample.empty_page (projects (Sample.args false))
  = Some (Dir [Sample.array])
  /\ sorted [Sample.array] = [] ++ Sample.array :: []
  /\ discover_loop (rt := Sample.runtime) (projects (Sample.args false)) [] []
     = Return []
  /\ snd Sample.array = Dir [(METADATA_FILE, File (codes "[]"))]
  /\ lookup METADATA_FILE [(METADATA_FILE, File (codes "[]"))]
     = Some (File (codes "[]"))
  /\ json_loads (Runtime := Sample.runtime) (codes "[]") = Decoded (JArr [])
  /\ (forall md, JArr [] <> JObj md)
  /\ discover_projects (rt := Sample.runtime)
       (Sample.disk [Sample.array] Sample.empty_page) (projects (Sample.args false))
     = Raise AttributeError
  /\ main (rt := Sample.runtime)
       (Sample.disk [Sample.array] Sample.empty_page) (Sample.args false)
     = mkRun (Raise AttributeError) [] []
  /\ forall msg,
      status (main (rt := Sample.runtime)
                (Sample.disk [Sample.array] Sample.empty_page) (Sample.args false))
      <> Exit msg.
Proof.
  split; [reflexivity|]. split; [reflexivity|]. split; [reflexivity|].
  split; [reflexivity|]. split; [reflexivity|]. split; [reflexivity|].
  split; [discriminate|].
  apply (non_object_metadata_raises (rt := Sample.runtime)
           (Sample.disk [Sample.array] Sample.empty_page) (Sample.args false)
           [Sample.array] [] [] Sample.array
           [(METADATA_FILE, File (codes "[]"))] (codes "[]") (JArr []) []);
    try reflexivity. discriminate.
Defined.

(* ================================================================== *)
(** ** Further properties: rendering *)





Lemma nav_item_renderable (p : Project) :
  renderable p = true ->
  exists n u d,
    nav_item p = nav_item (typed_project n u d)
    /\ name p = JStr n /\ url p = JStr u.
Proof.
  unfold renderable. destruct p as [pn pu pd]. cbn [name url description].
  destruct pn as [| | | |n| |]; try discriminate.
  destruct pu as [| | | |u| |]; try discriminate.
  intros H.
  destruct pd as [|b|z|f|s|items|members].
  - exists n, u, None. now repeat split.
  - exists n, u, None. repeat split. unfold nav_item. cbn [description].
    apply negb_true_iff in H. now rewrite H.
  - exists n, u, None. repeat split. unfold nav_item. cbn [description].
    apply negb_true_iff in H. now rewrite H.
  - exists n, u, None. repeat split. unfold nav_item. cbn [description].
    apply negb_true_iff in H. now rewrite H.
  - exists n, u, (Some s). now repeat split.
  - exists n, u, None. repeat split. unfold nav_item. cbn [description].
    apply negb_true_iff in H. now rewrite H.
  - exists n, u, None. repeat split. unfold nav_item. cbn [description].
    apply negb_true_iff in H. now rewrite H.
Qed.

Lemma nav_item_not_renderable (p : Project) :
  renderable p = false -> nav_item p = Raise AttributeError.
Proof.
  unfold renderable, nav_item. destruct p as [pn pu pd].
  cbn [name url description]. intros H.
  destruct pn, pu, pd;
    cbn [truthy escape_value bind nonempty negb] in H |- *;
    try discriminate H; try reflexivity;
    repeat match goal with
      | |- context [if ?b then _ else _] =>
          destruct b eqn:?; cbn [truthy escape_value bind nonempty negb] in *
      end;
    try reflexivity; try discriminate.
Qed.

(** X2. [nav_item] returns markup exactly for the projects whose name
    and url are strings and whose description is a string or counts as
    false; for every other project it raises [AttributeError].  It never
    raises [SystemExit], and what it returns is never empty. *)
Theorem nav_item_outcome (p : Project) :
  ((exists t, nav_item p = Return t /\ t <> []) <-> renderable p = true)
  /\ (nav_item p = Raise AttributeError <-> renderable p = false)
  /\ (forall msg, nav_item p <> Exit msg).
Proof.
  destruct (renderable p) eqn:R.
  - destruct (nav_item_renderable p R) as (n & u & d & E & _).
    rewrite nav_item_typed in E. split; [|split].
    + split; [reflexivity|]. intros _.
      exists (Py.strip (Textwrap.dedent
                (nav_item_text (Html.entities u) (title_html d) (Html.entities n)
                   (span_html d)))).
      split; [exact E|]. now apply (nav_item_nonempty p).
    + rewrite E. split; discriminate.
    + intros msg. rewrite E. discriminate.
  - pose proof (nav_item_not_renderable p R) as E. split; [|split].
    + split; [|discriminate]. intros (t & H & _). rewrite E in H. discriminate.
    + now split.
    + intros msg. rewrite E. discriminate.
Qed.

Lemma render_items_outcome (ps : list Project) :
  if forallb renderable ps
  then exists items, render_items ps = Return items
  else render_items ps = Raise AttributeError.
Proof.
  induction ps as [|p ps IH]; cbn [forallb render_items]; [now exists []|].
  destruct (renderable p) eqn:R; cbn [andb].
  - destruct (nav_item_renderable p R) as (n & u & d & E & _).
    rewrite E, nav_item_typed. cbn [bind].
    destruct (forallb renderable ps).
    + destruct IH as (items & ->). cbn [bind]. eauto.
    + rewrite IH. reflexivity.
  - now rewrite (nav_item_not_renderable p R).
Qed.

(** X3. [build_navigation_markup] returns a fragment exactly when every
    project can be rendered; otherwise it raises [AttributeError] (the first
    project with a field that is no string ends the rendering).  It never
    raises [SystemExit]. *)
Theorem build_navigation_markup_outcome (ps : list Project) :
  ((exists fragment, build_navigation_markup ps = Return fragment)
   <-> forallb renderable ps = true)
  /\ (build_navigation_markup ps = Raise AttributeError
      <-> forallb renderable ps = false)
  /\ (forall msg, build_navigation_markup ps <> Exit msg).
Proof.
  pose proof (render_items_outcome ps) as R.
  destruct ps as [|p ps].
  - cbn. split; [|split].
    + split; [reflexivity|eauto].
    + split; discriminate.
    + discriminate.
  - unfold build_navigation_markup.
    destruct (forallb renderable (p :: ps)).
    + destruct R as (items & ->). cbn [bind]. split; [|split].
      * split; [reflexivity|eauto].
      * split; discriminate.
      * discriminate.
    + rewrite R. cbn [bind]. split; [|split].
      * split; [|discriminate]. intros (f & H). discriminate.
      * now split.
      * discriminate.
Qed.

(* ================================================================== *)
(** ** Further properties: the exact lines of the list *)

Lemma split_nl_free (l : str) : nl_free l = true -> Py.split nl l = [l].
Proof.
  induction l as [|c l IH]; [reflexivity|]. cbn [nl_free forallb Py.split].
  intros H. apply andb_true_iff in H. destruct H as [C F].
  apply negb_true_iff in C. rewrite C. fold (nl_free l) in F. now rewrite (IH F).
Qed.

Lemma split_line (l rest : str) :
  nl_free l = true -> Py.split nl (l ++ nl :: rest) = l :: Py.split nl rest.
Proof. intros F. now rewrite split_app_sep, (split_nl_free l F). Qed.

Lemma split_nl_cons (rest : str) : Py.split nl (nl :: rest) = [] :: Py.split nl rest.
Proof. reflexivity. Qed.

Lemma break_free_nl_free (l : str) : break_free l = true -> nl_free l = true.
Proof.
  unfold break_free, nl_free. induction l as [|c l IH]; [reflexivity|].
  cbn [forallb]. intros H. apply andb_true_iff in H. destruct H as [C F].
  rewrite (IH F), andb_true_r. apply negb_true_iff in C. apply negb_true_iff.
  destruct (N.eqb_spec c nl) as [->|]; [discriminate|reflexivity].
Qed.

Lemma entities_break_free (s : str) :
  break_free s = true -> break_free (Html.entities s) = true.
Proof.
  induction s as [|c s IH]; [reflexivity|]. cbn [break_free forallb].
  intros H. apply andb_true_iff in H. destruct H as [C F].
  change (Html.entities (c :: s)) with (Html.entity c ++ Html.entities s).
  apply break_free_app; [|now apply IH]. unfold Html.entity.
  repeat match goal with |- context [if ?b then _ else _] => destruct b end;
    try reflexivity.
  cbn [break_free forallb]. now rewrite C.
Qed.

Lemma anchor_head (u ta n : str) :
  anchor_html u ta n
  = 60 :: codes "a href=" ++ [dq] ++ u ++ [dq] ++ ta ++ codes ">" ++ n ++ codes "</a>".
Proof. reflexivity. Qed.

Lemma title_html_break_free (d : option str) :
  match d with Some s => break_free s | None => true end = true ->
  break_free (title_html d) = true.
Proof.
  destruct d as [[|c t]|]; try reflexivity. intros H.
  unfold title_html. apply break_free_app; [reflexivity|].
  apply break_free_app; [reflexivity|].
  apply break_free_app; [now apply entities_break_free|reflexivity].
Qed.

Lemma span_html_break_free (d : option str) :
  match d with Some s => break_free s | None => true end = true ->
  break_free (span_html d) = true.
Proof.
  destruct d as [[|c t]|]; try reflexivity. intros H.
  unfold span_html. repeat (apply break_free_app; [reflexivity|]).
  apply break_free_app; [now apply entities_break_free|reflexivity].
Qed.

Lemma span_html_head (d : option str) :
  span_html d = [] \/ exists r, span_html d = 60 :: r.
Proof. destruct d as [[|c t]|]; [now left| |now left]. right. now eexists. Qed.

Lemma anchor_break_free (n u : str) (d : option str) :
  single_line (n, u, d) = true ->
  break_free (anchor_html (Html.entities u) (title_html d) (Html.entities n)) = true.
Proof.
  cbn [single_line]. intros H. apply andb_true_iff in H. destruct H as [H D].
  apply andb_true_iff in H. destruct H as [N U].
  unfold anchor_html.
  apply break_free_app; [reflexivity|]. apply break_free_app; [reflexivity|].
  apply break_free_app; [now apply entities_break_free|].
  apply break_free_app; [reflexivity|].
  apply break_free_app; [now apply title_html_break_free|].
  apply break_free_app; [reflexivity|].
  apply break_free_app; [now apply entities_break_free|reflexivity].
Qed.

Lemma nl_free_cons_app (k : nat) (c : char) (l : str) :
  (c =? nl) = false -> nl_free l = true -> nl_free (spaces k ++ c :: l) = true.
Proof.
  intros C F. unfold nl_free in *. rewrite forallb_app.
  assert (T : forallb (fun x => negb (x =? nl)) (c :: l) = true).
  { change (negb (c =? nl) && forallb (fun x => negb (x =? nl)) l = true).
    now rewrite C, F. }
  apply andb_true_iff. split; [|exact T].
  induction k as [|k IH]; [reflexivity|exact IH].
Qed.

(** [dedent] on the text of an item whose anchor and description hold no
    newline: the margin is the twelve spaces before [<li>]. *)
Lemma dedent_item (A D : str) :
  nl_free A = true -> nl_free D = true ->
  Textwrap.dedent
    (nl :: (spaces 12 ++ codes "<li>")
     ++ nl :: (spaces 14 ++ 60 :: A)
     ++ nl :: (spaces 14 ++ 60 :: D)
     ++ nl :: (spaces 12 ++ codes "</li>")
     ++ nl :: spaces 12)
  = nl :: codes "<li>"
    ++ nl :: (spaces 2 ++ 60 :: A)
    ++ nl :: (spaces 2 ++ 60 :: D)
    ++ nl :: codes "</li>" ++ [nl].
Proof.
  intros FA FD. unfold Textwrap.dedent.
  rewrite split_nl_cons.
  rewrite (split_line (spaces 12 ++ codes "<li>") _ eq_refl).
  rewrite (split_line (spaces 14 ++ 60 :: A) _ (nl_free_cons_app 14 60 A eq_refl FA)).
  rewrite (split_line (spaces 14 ++ 60 :: D) _ (nl_free_cons_app 14 60 D eq_refl FD)).
  rewrite (split_line (spaces 12 ++ codes "</li>") _ eq_refl).
  rewrite (split_nl_free (spaces 12) eq_refl).
  cbn. reflexivity.
Qed.

Lemma dedent_item_plain (A : str) :
  nl_free A = true ->
  Textwrap.dedent
    (nl :: (spaces 12 ++ codes "<li>")
     ++ nl :: (spaces 14 ++ 60 :: A)
     ++ nl :: (spaces 14 ++ [])
     ++ nl :: (spaces 12 ++ codes "</li>")
     ++ nl :: spaces 12)
  = nl :: codes "<li>"
    ++ nl :: (spaces 2 ++ 60 :: A)
    ++ nl :: []
    ++ nl :: codes "</li>" ++ [nl].
Proof.
  intros FA. unfold Textwrap.dedent.
  rewrite split_nl_cons.
  rewrite (split_line (spaces 12 ++ codes "<li>") _ eq_refl).
  rewrite (split_line (spaces 14 ++ 60 :: A) _ (nl_free_cons_app 14 60 A eq_refl FA)).
  rewrite (split_line (spaces 14 ++ []) _ eq_refl).
  rewrite (split_line (spaces 12 ++ codes "</li>") _ eq_refl).
  rewrite (split_nl_free (spaces 12) eq_refl).
  cbn. reflexivity.
Qed.

Lemma rstrip_keep (x y : str) :
  Py.rstrip y <> [] -> Py.rstrip (x ++ y) = x ++ Py.rstrip y.
Proof.
  intros N. induction x as [|c x IH]; [reflexivity|].
  cbn [app Py.rstrip]. rewrite IH.
  destruct (x ++ Py.rstrip y) eqn:E; [|reflexivity].
  apply app_eq_nil in E. destruct E as [_ E]. contradiction.
Qed.

Lemma strip_item (X : str) :
  Py.strip (nl :: codes "<li>" ++ X ++ codes "</li>" ++ [nl])
  = codes "<li>" ++ X ++ codes "</li>".
Proof.
  unfold Py.strip.
  change (nl :: codes "<li>" ++ X ++ codes "</li>" ++ [nl])
    with ((nl :: codes "<li>") ++ X ++ codes "</li>" ++ [nl]).
  rewrite (app_assoc _ X). rewrite rstrip_keep by discriminate.
  change (Py.rstrip (codes "</li>" ++ [nl])) with (codes "</li>").
  rewrite <- app_assoc. reflexivity.
Qed.

Ltac list_norm := repeat (progress cbn [app] || rewrite <- app_assoc).

Lemma nl_free_tail (c : char) (l : str) : nl_free (c :: l) = true -> nl_free l = true.
Proof.
  unfold nl_free. cbn [forallb]. intros H. apply andb_true_iff in H. now destruct H.
Qed.

Lemma after_break_nl (t : str) : after_break nl t = t.
Proof. now destruct t. Qed.

(** Without newlines in its fields an item is the four lines of the
    f-string, dedented by its twelve spaces of margin. *)
Lemma nav_item_exact (n u : str) (d : option str) :
  single_line (n, u, d) = true ->
  nav_item (typed_project n u d) = Return (exact_item_text (n, u, d)).
Proof.
  intros S. rewrite nav_item_typed. f_equal.
  pose proof (anchor_break_free n u d S) as BA.
  apply break_free_nl_free in BA. rewrite anchor_head in BA.
  apply nl_free_tail in BA.
  assert (BD : break_free (span_html d) = true).
  { apply span_html_break_free. cbn [single_line] in S.
    apply andb_true_iff in S. now destruct S. }
  apply break_free_nl_free in BD.
  rewrite nav_item_text_anchor. unfold exact_item_text.
  rewrite anchor_head.
  destruct (span_html_head d) as [E|(r & E)]; rewrite E in *.
  - rewrite (dedent_item_plain _ BA).
    match goal with
    | |- Py.strip ?t = _ =>
        replace t with
          (nl :: codes "<li>"
           ++ (nl :: (spaces 2 ++ 60 :: codes "a href=" ++ [dq] ++ Html.entities u
                      ++ [dq] ++ title_html d ++ codes ">" ++ Html.entities n
                      ++ codes "</a>") ++ [nl; nl])
           ++ codes "</li>" ++ [nl])
          by (list_norm; reflexivity)
    end.
    rewrite strip_item. list_norm. reflexivity.
  - apply nl_free_tail in BD.
    rewrite (dedent_item _ _ BA BD).
    match goal with
    | |- Py.strip ?t = _ =>
        replace t with
          (nl :: codes "<li>"
           ++ (nl :: (spaces 2 ++ 60 :: codes "a href=" ++ [dq] ++ Html.entities u
                      ++ [dq] ++ title_html d ++ codes ">" ++ Html.entities n
                      ++ codes "</a>") ++ nl :: (spaces 2 ++ 60 :: r) ++ [nl])
           ++ codes "</li>" ++ [nl])
          by (list_norm; reflexivity)
    end.
    rewrite strip_item. list_norm. reflexivity.
Qed.

Lemma exact_item_splitlines (n u : str) (d : option str) :
  single_line (n, u, d) = true ->
  item_lines (exact_item_text (n, u, d)) = exact_item_lines (n, u, d).
Proof.
  intros S. pose proof (anchor_break_free n u d S) as BA.
  assert (BD : break_free (span_html d) = true).
  { apply span_html_break_free. cbn [single_line] in S.
    apply andb_true_iff in S. now destruct S. }
  unfold item_lines, exact_item_text, exact_item_lines.
  set (A := anchor_html (Html.entities u) (title_html d) (Html.entities n)) in *.
  set (Dl := match span_html d with [] => [] | c :: s => spaces 2 ++ c :: s end).
  assert (BDl : break_free Dl = true).
  { unfold Dl. destruct (span_html d); [reflexivity|].
    now apply break_free_app. }
  replace (codes "<li>" ++ [nl] ++ spaces 2 ++ A ++ [nl] ++ Dl ++ [nl] ++ codes "</li>")
    with (codes "<li>" ++ nl :: (spaces 2 ++ A) ++ nl :: Dl ++ nl :: codes "</li>")
    by (list_norm; reflexivity).
  rewrite (splitlines_line (codes "<li>") _ nl eq_refl eq_refl), after_break_nl.
  rewrite (splitlines_line (spaces 2 ++ A) _ nl
             (break_free_app (spaces 2) A eq_refl BA) eq_refl), after_break_nl.
  rewrite (splitlines_line Dl _ nl BDl eq_refl), after_break_nl.
  change (Py.splitlines (codes "</li>")) with [codes "</li>"].
  cbn [map]. unfold Dl. destruct (span_html d); list_norm; reflexivity.
Qed.

(** X4. When no name, url or description holds a line terminator, the
    fragment is exactly the opening tag, four lines per project ([<li>], the
    anchor, the description span or a line of two spaces, [</li>]) and the
    closing tag, joined by newlines: items are indented by two spaces and
    their content by four. *)
Theorem exact_rendering (items : list (str * str * option str)) :
  items <> [] ->
  forallb single_line items = true ->
  build_navigation_markup (map project_of_item items)
  = Return (Py.join [nl]
              (LIST_OPEN :: flat_map exact_item_lines items ++ [LIST_CLOSE])).
Proof.
  intros NE S.
  assert (R : render_items (map project_of_item items)
              = Return (map (fun t => indent_block t 2) (map exact_item_text items))).
  { clear NE. induction items as [|[[n u] d] items IH]; [reflexivity|].
    cbn [forallb] in S. apply andb_true_iff in S. destruct S as [S1 S].
    cbn [map render_items project_of_item]. rewrite (nav_item_exact n u d S1).
    cbn [bind]. now rewrite (IH S). }
  assert (F : Forall2 (fun p t => nav_item p = Return t)
                (map project_of_item items) (map exact_item_text items)).
  { clear NE R. induction items as [|[[n u] d] items IH]; [constructor|].
    cbn [forallb] in S. apply andb_true_iff in S. destruct S as [S1 S].
    cbn [map project_of_item]. constructor; [now apply nav_item_exact|now apply IH]. }
  pose proof (rendered_lines _ _ F) as L.
  assert (E : flat_map item_lines (map exact_item_text items)
              = flat_map exact_item_lines items).
  { clear NE R F L. induction items as [|[[n u] d] items IH]; [reflexivity|].
    cbn [forallb] in S. apply andb_true_iff in S. destruct S as [S1 S].
    cbn [map flat_map]. now rewrite (exact_item_splitlines n u d S1), (IH S). }
  destruct items as [|it items]; [contradiction|].
  unfold build_navigation_markup.
  change (map project_of_item (it :: items))
    with (project_of_item it :: map project_of_item items) at 1.
  cbv iota beta.
  change (project_of_item it :: map project_of_item items)
    with (map project_of_item (it :: items)).
  rewrite R. cbn [bind]. f_equal. f_equal. rewrite <- E, <- L.
  destruct (Py.join [nl] _) as [|c s] eqn:J; cbn [Py.truthy_str nonempty];
    reflexivity.
Qed.

Lemma exact_rendering_witness :
  [(codes "Demo", codes "demo/", Some (codes "A sample"));
   (codes "a<b", codes "x?y&z", None)] <> []
  /\ forallb single_line
       [(codes "Demo", codes "demo/", Some (codes "A sample"));
        (codes "a<b", codes "x?y&z", None)] = true
  /\ build_navigation_markup
       (map project_of_item
          [(codes "Demo", codes "demo/", Some (codes "A sample"));
           (codes "a<b", codes "x?y&z", None)])
     = Return (Py.join [nl]
         (LIST_OPEN
          :: flat_map exact_item_lines
               [(codes "Demo", codes "demo/", Some (codes "A sample"));
                (codes "a<b", codes "x?y&z", None)]
          ++ [LIST_CLOSE])).
Proof.
  split; [discriminate|]. split; [reflexivity|].
  apply (exact_rendering
           [(codes "Demo", codes "demo/", Some (codes "A sample"));
            (codes "a<b", codes "x?y&z", None)]); [discriminate|reflexivity].
Defined.

(* ================================================================== *)
(** ** Further properties: what the user's text cannot add *)

Lemma typed_markup_words (items : list (str * str * option str)) :
  exists fragment,
    build_navigation_markup (map project_of_item items) = Return fragment
    /\ words fragment = words (expected_markup items).
Proof.
  destruct items as [|it items].
  - exists NO_PROJECTS. split; [|reflexivity].
    cbn [map build_navigation_markup]. now rewrite no_projects_text.
  - set (all := it :: items).
    unfold build_navigation_markup.
    change (map project_of_item all)
      with (project_of_item it :: map project_of_item items).
    cbv iota beta.
    change (project_of_item it :: map project_of_item items)
      with (map project_of_item all).
    rewrite render_items_typed. cbn [bind].
    eexists. split; [reflexivity|].
    rewrite words_lines.
    unfold expected_markup, all. change (codes " ") with [32] at 1.
    cbn [app]. rewrite words_app_space by reflexivity.
    fold all. rewrite words_items_row. f_equal. f_equal.
    rewrite words_join_nl. rewrite flat_map_concat_map, map_map.
    rewrite <- flat_map_concat_map. apply flat_map_ext.
    intros [[n u] d]. rewrite words_indent_block, words_strip, words_dedent.
    symmetry. apply words_item_markup.
Qed.

Lemma concat_fields (s : str) : concat (fields s) = squeeze s.
Proof.
  induction s as [|c s IH]; [reflexivity|]. cbn [fields squeeze filter].
  fold (squeeze s). destruct (Py.isspace c); cbn [negb].
  - exact IH.
  - pose proof (fields_not_nil s) as NE.
    destruct (fields s) as [|l ls]; [contradiction|].
    cbn [concat app] in *. now rewrite IH.
Qed.

Lemma concat_nonempty (ls : list str) : concat (filter nonempty ls) = concat ls.
Proof.
  induction ls as [|l ls IH]; [reflexivity|].
  destruct l as [|c l]; cbn [filter nonempty concat app]; now rewrite IH.
Qed.

Lemma concat_words (s : str) : concat (words s) = squeeze s.
Proof. unfold words. now rewrite concat_nonempty, concat_fields. Qed.

Lemma count_app (c : char) (a b : str) : count c (a ++ b) = (count c a + count c b)%nat.
Proof. induction a as [|x a IH]; [reflexivity|]. cbn [app count]. rewrite IH. lia. Qed.

Lemma count_squeeze (c : char) (s : str) :
  Py.isspace c = false -> count c (squeeze s) = count c s.
Proof.
  intros C. induction s as [|x s IH]; [reflexivity|].
  cbn [squeeze filter count]. fold (squeeze s).
  destruct (Py.isspace x) eqn:X; cbn [negb count].
  - rewrite IH. destruct (N.eqb_spec x c) as [->|]; [congruence|reflexivity].
  - now rewrite IH.
Qed.

(** Texts with the same words hold each visible character equally often. *)
Lemma count_words (c : char) (a b : str) :
  Py.isspace c = false -> words a = words b -> count c a = count c b.
Proof.
  intros C W. rewrite <- (count_squeeze c a C), <- (count_squeeze c b C).
  now rewrite <- !concat_words, W.
Qed.

Lemma count_absent (c : char) (s : str) : ~ In c s -> count c s = O.
Proof.
  induction s as [|x s IH]; [reflexivity|]. intros N. cbn [count].
  rewrite IH by (intros I; apply N; now right).
  destruct (N.eqb_spec x c) as [->|]; [|reflexivity].
  exfalso. apply N. now left.
Qed.

Lemma count_entities (c : char) (s : str) :
  c = 60 \/ c = 62 \/ c = dq \/ c = 39 -> count c (Html.entities s) = O.
Proof.
  intros H. apply count_absent. intros I. apply entities_clean in I.
  destruct I as (N1 & N2 & N3 & N4). destruct H as [ -> | [ -> | [ -> | -> ] ] ]; congruence.
Qed.

Lemma count_item_markup (c : char) (it : str * str * option str) :
  c = 60 \/ c = 62 \/ c = dq \/ c = 39 ->
  count c (item_markup it ++ codes " ")
  = ((if (c =? dq)%N then 2 else if (c =? 39)%N then 0 else 4)
     + (if has_description it
        then (if (c =? dq)%N then 4 else if (c =? 39)%N then 0 else 2) else 0))%nat.
Proof.
  intros H. destruct it as [[n u] d]. unfold item_markup, anchor_html.
  rewrite !count_app. rewrite !(count_entities c) by assumption.
  unfold has_description. cbn [snd].
  destruct d as [[|x t]|]; unfold title_html, span_html;
    rewrite ?count_app, ?(count_entities c) by assumption;
    destruct H as [ -> | [ -> | [ -> | -> ] ] ]; reflexivity.
Qed.

Lemma count_items_row (c : char) (items : list (str * str * option str)) :
  c = 60 \/ c = 62 \/ c = dq \/ c = 39 ->
  count c (flat_map (fun it => item_markup it ++ codes " ") items)
  = ((if (c =? dq)%N then 2 else if (c =? 39)%N then 0 else 4) * length items
     + (if (c =? dq)%N then 4 else if (c =? 39)%N then 0 else 2)
       * length (filter has_description items))%nat.
Proof.
  intros H. induction items as [|it items IH]; [cbn; lia|].
  cbn [flat_map length filter]. rewrite count_app, IH, (count_item_markup c it H).
  destruct (has_description it); cbn [length]; lia.
Qed.

(** X5. Whatever the names, urls and descriptions hold, the rendered
    list has as many [<], [>], double and single quotes as its tags and
    attributes need: two [<] for the list, four for each project and two
    more for each non-empty description (likewise [>]); two double quotes
    for the list, two for each project and four more for each non-empty
    description; no single quote.  The user's text adds none. *)
Theorem markup_delimiter_counts
  (it : str * str * option str) (items : list (str * str * option str)) :
  exists fragment,
    build_navigation_markup (map project_of_item (it :: items)) = Return fragment
    /\ count 60 fragment
       = (2 + 4 * length (it :: items)
          + 2 * length (filter has_description (it :: items)))%nat
    /\ count 62 fragment
       = (2 + 4 * length (it :: items)
          + 2 * length (filter has_description (it :: items)))%nat
    /\ count dq fragment
       = (2 + 2 * length (it :: items)
          + 4 * length (filter has_description (it :: items)))%nat
    /\ count 39 fragment = O.
Proof.
  destruct (typed_markup_words (it :: items)) as (fragment & B & W).
  exists fragment. split; [exact B|].
  assert (C : forall c, c = 60 \/ c = 62 \/ c = dq \/ c = 39 ->
              count c fragment
              = (count c LIST_OPEN + 0
                 + ((if (c =? dq)%N then 2 else if (c =? 39)%N then 0 else 4)
                    * length (it :: items)
                    + (if (c =? dq)%N then 4 else if (c =? 39)%N then 0 else 2)
                      * length (filter has_description (it :: items)))
                 + count c LIST_CLOSE)%nat).
  { intros c H.
    assert (S : Py.isspace c = false)
      by (destruct H as [ -> | [ -> | [ -> | -> ] ] ]; reflexivity).
    rewrite (count_words c _ _ S W). unfold expected_markup.
    rewrite !count_app, (count_items_row c (it :: items) H).
    destruct H as [ -> | [ -> | [ -> | -> ] ] ]; reflexivity. }
  repeat split.
  - rewrite (C 60) by auto. change (count 60 LIST_OPEN) with 1%nat.
    change (count 60 LIST_CLOSE) with 1%nat.
    change (60 =? dq) with false. change (60 =? 39) with false. cbv iota. lia.
  - rewrite (C 62) by auto. change (count 62 LIST_OPEN) with 1%nat.
    change (count 62 LIST_CLOSE) with 1%nat.
    change (62 =? dq) with false. change (62 =? 39) with false. cbv iota. lia.
  - rewrite (C dq) by auto. change (count dq LIST_OPEN) with 2%nat.
    change (count dq LIST_CLOSE) with 0%nat.
    change (dq =? dq) with true. cbv iota. lia.
  - rewrite (C 39) by auto. change (count 39 LIST_OPEN) with 0%nat.
    change (count 39 LIST_CLOSE) with 0%nat.
    change (39 =? dq) with false. change (39 =? 39) with true. cbv iota. lia.
Qed.

Lemma first_field_prefix (s l : str) (ls : list str) :
  fields s = l :: ls -> exists r, s = l ++ r.
Proof.
  revert l ls; induction s as [|c s IH]; intros l ls; cbn [fields].
  - intros H; injection H as <- _. now exists [].
  - destruct (Py.isspace c).
    + intros H; injection H as <- _. now exists (c :: s).
    + destruct (fields s) as [|l' ls'] eqn:F.
      * intros H; injection H as <- _. apply fields_not_nil in F. contradiction.
      * intros H; injection H as <- _. destruct (IH l' ls' eq_refl) as (r & ->).
        now exists r.
Qed.

Lemma field_occurs (s w : str) : In w (fields s) -> occurs w s.
Proof.
  revert w; induction s as [|c s IH]; intros w; cbn [fields].
  - intros [<-|[]]. now exists [], [].
  - destruct (Py.isspace c).
    + intros [<-|I]; [now exists [], (c :: s)|].
      destruct (IH w I) as (a & b & ->). now exists (c :: a), b.
    + destruct (fields s) as [|l ls] eqn:F.
      * apply fields_not_nil in F. contradiction.
      * intros [<-|I].
        -- destruct (first_field_prefix s l ls F) as (r & ->). now exists [], r.
        -- destruct (IH w (or_intror I)) as (a & b & ->). now exists (c :: a), b.
Qed.

Lemma prefix_first_field (p b l : str) (ls : list str) :
  forallb (fun c => negb (Py.isspace c)) p = true ->
  fields (p ++ b) = l :: ls -> exists r, l = p ++ r.
Proof.
  revert l ls; induction p as [|c p IH]; intros l ls V; [now exists l|].
  cbn [forallb] in V. apply andb_true_iff in V. destruct V as [C V].
  apply negb_true_iff in C. cbn [app fields]. rewrite C.
  destruct (fields (p ++ b)) as [|l' ls'] eqn:F.
  - apply fields_not_nil in F. contradiction.
  - intros H; injection H as <- _. destruct (IH l' ls' V eq_refl) as (r & ->).
    now exists r.
Qed.

Lemma occurs_field (p s : str) :
  forallb (fun c => negb (Py.isspace c)) p = true ->
  occurs p s -> exists w, In w (fields s) /\ occurs p w.
Proof.
  intros V. induction s as [|c s IH]; intros (a & b & E).
  - exists []. split; [now left|]. now exists a, b.
  - destruct a as [|x a].
    + cbn [app] in E. destruct p as [|y p].
      * exists (hd [] (fields (c :: s))). split.
        -- pose proof (fields_not_nil (c :: s)) as NE.
           destruct (fields (c :: s)); [contradiction|now left].
        -- now exists [], (hd [] (fields (c :: s))).
      * injection E as -> ->.
        change (y :: p ++ b) with ((y :: p) ++ b).
        pose proof (fields_not_nil ((y :: p) ++ b)) as NE.
        destruct (fields ((y :: p) ++ b)) as [|l ls] eqn:F; [contradiction|].
        destruct (prefix_first_field (y :: p) b l ls V F) as (r & ->).
        exists ((y :: p) ++ r). split; [now left|]. now exists [], r.
    + injection E as -> ->.
      destruct IH as (w & I & O); [now exists a, b|].
      cbn [fields]. destruct (Py.isspace x).
      * exists w. split; [now right|exact O].
      * destruct (fields (a ++ p ++ b)) as [|l ls] eqn:F;
          [apply fields_not_nil in F; contradiction|].
        destruct I as [<-|I].
        -- exists (x :: l). split; [now left|].
           destruct O as (u & v & ->). now exists (x :: u), v.
        -- exists w. split; [now right|exact O].
Qed.

(** A text without whitespace that occurs in one of two texts with the
    same words occurs in the other. *)
Lemma occurs_same_words (p a b : str) :
  p <> [] -> forallb (fun c => negb (Py.isspace c)) p = true ->
  words a = words b -> occurs p a -> occurs p b.
Proof.
  intros NE V W O. destruct (occurs_field p a V O) as (w & I & Ow).
  assert (Iw : In w (words a)).
  { unfold words. apply filter_In. split; [assumption|].
    destruct w; [|reflexivity]. destruct Ow as (u & v & E).
    destruct u; destruct p; try contradiction; discriminate. }
  rewrite W in Iw. unfold words in Iw. apply filter_In in Iw.
  destruct Iw as [Ib _]. eapply occurs_trans; [exact Ow|now apply field_occurs].
Qed.

Lemma plain_nil : plain [].
Proof. now split. Qed.

Lemma ends_lt_app (x y : str) : y <> [] -> ends_lt (x ++ y) = ends_lt y.
Proof.
  intros NE. induction x as [|c x IH]; [reflexivity|].
  cbn [app ends_lt]. destruct (x ++ y) eqn:E; [|exact IH].
  apply app_eq_nil in E. destruct E as [_ E]. contradiction.
Qed.

Lemma no_comment_open_app (x y : str) :
  no_comment_open x = true -> ends_lt x = false -> no_comment_open y = true ->
  no_comment_open (x ++ y) = true.
Proof.
  intros Nx Ex Ny. induction x as [|c x IH]; [exact Ny|].
  cbn [app no_comment_open] in *. apply andb_true_iff in Nx. destruct Nx as [H Nx].
  destruct x as [|d x].
  - cbn [app ends_lt] in *. rewrite Ex. cbn [andb negb]. exact Ny.
  - cbn [app] in *. rewrite H. cbn [andb]. apply IH; assumption.
Qed.

Lemma plain_app (x y : str) : plain x -> plain y -> plain (x ++ y).
Proof.
  intros [Nx Ex] [Ny Ey]. split; [now apply no_comment_open_app|].
  destruct y as [|c y]; [now rewrite app_nil_r|].
  now rewrite ends_lt_app by discriminate.
Qed.

Lemma plain_lt_free (s : str) : lt_free s = true -> plain s.
Proof.
  unfold lt_free. induction s as [|c s IH]; [intros _; apply plain_nil|].
  cbn [forallb]. intros H. apply andb_true_iff in H. destruct H as [C F].
  apply negb_true_iff in C. destruct (IH F) as [N E]. split.
  - cbn [no_comment_open]. now rewrite C, N.
  - cbn [ends_lt]. now destruct s.
Qed.

Lemma plain_entities (s : str) : plain (Html.entities s).
Proof.
  apply plain_lt_free. unfold lt_free. apply forallb_forall. intros c I.
  apply entities_clean in I. destruct I as (N & _). apply negb_true_iff.
  now apply N.eqb_neq.
Qed.

Lemma plain_item_markup (it : str * str * option str) : plain (item_markup it).
Proof.
  destruct it as [[n u] d]. unfold item_markup, anchor_html.
  assert (T : plain (title_html d)).
  { destruct d as [[|c t]|]; try apply plain_nil. unfold title_html.
    repeat (apply plain_app; [now split|]).
    apply plain_app; [apply plain_entities|now split]. }
  assert (S : plain (span_html d)).
  { destruct d as [[|c t]|]; try apply plain_nil. unfold span_html.
    repeat (apply plain_app; [now split|]).
    apply plain_app; [apply plain_entities|now split]. }
  rewrite <- !app_assoc.
  repeat (apply plain_app;
          [first [now split | apply plain_entities | assumption]|]).
  now split.
Qed.

Lemma plain_expected (items : list (str * str * option str)) :
  plain (expected_markup items).
Proof.
  destruct items as [|it items]; [now split|].
  unfold expected_markup. apply plain_app; [now split|].
  apply plain_app; [now split|]. apply plain_app; [|now split].
  induction (it :: items) as [|x l IH]; [apply plain_nil|].
  cbn [flat_map]. apply plain_app; [|exact IH].
  apply plain_app; [apply plain_item_markup|now split].
Qed.

Lemma no_comment_open_occurs (s : str) :
  no_comment_open s = true -> ~ occurs [60; 33] s.
Proof.
  induction s as [|c s IH]; intros N (a & b & E).
  - destruct a; discriminate.
  - cbn [no_comment_open] in N. apply andb_true_iff in N. destruct N as [H N].
    destruct a as [|x a].
    + cbn [app] in E. injection E as -> ->. discriminate.
    + injection E as _ ->. apply (IH N). now exists a, b.
Qed.

(** Every fragment rendered is the fragment of projects with typed
    fields. *)
Lemma typed_view (ps : list Project) (fragment : str) :
  build_navigation_markup ps = Return fragment ->
  exists items,
    build_navigation_markup (map project_of_item items) = Return fragment.
Proof.
  intros B.
  assert (R : forallb renderable ps = true).
  { pose proof (render_items_outcome ps) as O.
    destruct (forallb renderable ps); [reflexivity|].
    destruct ps as [|p ps]; [discriminate|].
    unfold build_navigation_markup in B. rewrite O in B. discriminate. }
  assert (V : exists items,
             length items = length ps
             /\ render_items (map project_of_item items) = render_items ps).
  { clear B. induction ps as [|p ps IH]; [now exists []|].
    cbn [forallb] in R. apply andb_true_iff in R. destruct R as [Rp R].
    destruct (IH R) as (items & L & E).
    destruct (nav_item_renderable p Rp) as (n & u & d & Ep & _).
    exists ((n, u, d) :: items). split; [cbn; now rewrite L|].
    cbn [map render_items project_of_item]. now rewrite Ep, E. }
  destruct V as (items & L & E). exists items.
  destruct ps as [|p ps]; destruct items as [|it items]; try discriminate.
  - exact B.
  - unfold build_navigation_markup in *.
    change (map project_of_item (it :: items))
      with (project_of_item it :: map project_of_item items) at 1.
    cbv iota beta.
    change (project_of_item it :: map project_of_item items)
      with (map project_of_item (it :: items)).
    rewrite E. exact B.
Qed.

(** X6. No fragment that [build_navigation_markup] returns holds the
    start marker or the end marker, whatever the projects: every [<] of a
    fragment opens a tag of the template, none is followed by [!]. *)
Theorem fragment_holds_no_marker (ps : list Project) (fragment : str) :
  build_navigation_markup ps = Return fragment ->
  ~ occurs START_MARKER fragment /\ ~ occurs END_MARKER fragment.
Proof.
  intros B. destruct (typed_view ps fragment B) as (items & Bt).
  destruct (typed_markup_words items) as (f & Bf & W).
  rewrite Bt in Bf. injection Bf as <-.
  assert (N : ~ occurs [60; 33] fragment).
  { intros O. apply (occurs_same_words [60; 33] _ _ ltac:(discriminate) eq_refl W) in O.
    revert O. apply no_comment_open_occurs. apply plain_expected. }
  split; intros O; apply N; (eapply occurs_trans; [|exact O]).
  - now exists [], (codes "-- PROJECT_NAV_START -->").
  - now exists [], (codes "-- PROJECT_NAV_END -->").
Qed.

Lemma fragment_holds_no_marker_witness :
  build_navigation_markup
    [typed_project (START_MARKER) (END_MARKER) (Some (codes "<!-- x -->"))]
  = Return (Py.join [nl]
      [LIST_OPEN;
       codes "  <li>";
       codes "    <a href=" ++ [dq] ++ codes "&lt;!-- PROJECT_NAV_END --&gt;" ++ [dq]
         ++ codes " title=" ++ [dq] ++ codes "&lt;!-- x --&gt;" ++ [dq]
         ++ codes ">&lt;!-- PROJECT_NAV_START --&gt;</a>";
       codes "    <span class=" ++ [dq] ++ codes "description" ++ [dq]
         ++ codes ">&lt;!-- x --&gt;</span>";
       codes "  </li>";
       LIST_CLOSE])
  /\ ~ occurs START_MARKER
       (Py.join [nl]
          [LIST_OPEN;
           codes "  <li>";
           codes "    <a href=" ++ [dq] ++ codes "&lt;!-- PROJECT_NAV_END --&gt;" ++ [dq]
             ++ codes " title=" ++ [dq] ++ codes "&lt;!-- x --&gt;" ++ [dq]
             ++ codes ">&lt;!-- PROJECT_NAV_START --&gt;</a>";
           codes "    <span class=" ++ [dq] ++ codes "description" ++ [dq]
             ++ codes ">&lt;!-- x --&gt;</span>";
           codes "  </li>";
           LIST_CLOSE])
  /\ ~ occurs END_MARKER
       (Py.join [nl]
          [LIST_OPEN;
           codes "  <li>";
           codes "    <a href=" ++ [dq] ++ codes "&lt;!-- PROJECT_NAV_END --&gt;" ++ [dq]
             ++ codes " title=" ++ [dq] ++ codes "&lt;!-- x --&gt;" ++ [dq]
             ++ codes ">&lt;!-- PROJECT_NAV_START --&gt;</a>";
           codes "    <span class=" ++ [dq] ++ codes "description" ++ [dq]
             ++ codes ">&lt;!-- x --&gt;</span>";
           codes "  </li>";
           LIST_CLOSE]).
Proof.
  split; [vm_compute; reflexivity|].
  apply (fragment_holds_no_marker
           [typed_project (START_MARKER) (END_MARKER) (Some (codes "<!-- x -->"))]).
  vm_compute. reflexivity.
Defined.

(* ================================================================== *)
(** ** Further properties: splicing again, and the run as a whole *)

Lemma splice_return (content markup out : str) :
  splice content markup = Return out ->
  exists m, Re.search content = Some m
            /\ out = Re.before m ++ replacement (Re.indent m) markup ++ Re.after m.
Proof.
  unfold splice. destruct (Re.search content) as [m|]; [|discriminate].
  intros H; injection H as <-. now exists m.
Qed.

Lemma update_homepage_return (fs : FileSystem) (p : Path) (markup out : str) :
  update_homepage fs p markup = Return out ->
  exists content, fs p = Some (File content) /\ splice content markup = Return out.
Proof.
  unfold update_homepage. destruct (fs p) as [[content|entries]|];
    cbn [read_text bind]; try discriminate.
  intros H. now exists content.
Qed.

Lemma spliced_has_markers (content markup out : str) :
  splice content markup = Return out -> has_markers out.
Proof.
  intros H. apply splice_return in H. destruct H as (m & _ & ->).
  unfold replacement.
  exists (Re.before m ++ Re.indent m),
    ([nl] ++ Py.join [nl]
               (map (fun line => if nonempty line then Re.indent m ++ line else line)
                    (Py.splitlines markup))
     ++ [nl] ++ Re.indent m),
    (Re.after m).
  list_norm. reflexivity.
Qed.

(** X7. A document that [update_homepage] has returned still holds the
    marker pair: once it is written back, a later update of it, with any
    fragment, finds the markers and returns a document. *)
Theorem updated_document_can_be_updated
  (fs : FileSystem) (index_path : Path) (markup out later : str) :
  update_homepage fs index_path markup = Return out ->
  has_markers out
  /\ exists out',
      update_homepage (write_text fs index_path out) index_path later = Return out'.
Proof.
  intros H. apply update_homepage_return in H. destruct H as (content & _ & S).
  pose proof (spliced_has_markers content markup out S) as M.
  split; [exact M|].
  rewrite (update_homepage_read _ index_path out later (read_back _ _ _)).
  unfold splice. pose proof (search_complete out M) as N.
  destruct (Re.search out) as [m|]; [eauto|contradiction].
Qed.

Lemma updated_document_can_be_updated_witness :
  update_homepage (Sample.disk [] Sample.empty_page) Sample.index_html (codes "<ul></ul>")
  = Return (Sample.page (codes "  " ++ START_MARKER ++ [nl] ++ codes "  <ul></ul>"
                         ++ [nl] ++ codes "  " ++ END_MARKER))
  /\ has_markers (Sample.page (codes "  " ++ START_MARKER ++ [nl] ++ codes "  <ul></ul>"
                               ++ [nl] ++ codes "  " ++ END_MARKER))
  /\ exists out',
      update_homepage
        (write_text (Sample.disk [] Sample.empty_page) Sample.index_html
           (Sample.page (codes "  " ++ START_MARKER ++ [nl] ++ codes "  <ul></ul>"
                         ++ [nl] ++ codes "  " ++ END_MARKER)))
        Sample.index_html (codes "<p></p>") = Return out'.
Proof.
  split; [vm_compute; reflexivity|].
  apply (updated_document_can_be_updated
           (Sample.disk [] Sample.empty_page) Sample.index_html (codes "<ul></ul>")).
  vm_compute. reflexivity.
Defined.

(** X8. An update overwrites the fragment of the update before it: when
    the earlier fragment did not hold the end marker, updating the document
    it produced gives the very document that updating the original gives.
    Nothing of the earlier fragment stays behind. *)
Theorem update_overwrites_previous_fragment
  (fs : FileSystem) (index_path : Path) (first second once : str) :
  ~ occurs END_MARKER first ->
  update_homepage fs index_path first = Return once ->
  update_homepage (write_text fs index_path once) index_path second
  = update_homepage fs index_path second.
Proof.
  intros NO H. apply update_homepage_return in H.
  destruct H as (content & R & S). apply splice_return in S.
  destruct S as (m & Sm & ->).
  destruct (search_some content m Sm) as (E & B & EB & FS & FE).
  rewrite (update_homepage_read _ index_path _ second (read_back _ _ _)).
  rewrite (update_homepage_read fs index_path content second R).
  rewrite (splice_found content second m Sm).
  set (mid := [nl] ++ Py.join [nl] (indented_lines (Re.indent m) first)
              ++ [nl] ++ Re.indent m).
  assert (Eo : Re.before m ++ replacement (Re.indent m) first ++ Re.after m
               = Re.before m ++ Re.indent m ++ START_MARKER ++ mid
                 ++ END_MARKER ++ Re.after m).
  { unfold mid. rewrite replacement_lines. now rewrite <- !app_assoc. }
  rewrite Eo.
  rewrite (splice_found _ second (Re.mkFound (Re.before m) (Re.indent m) mid (Re.after m)));
    [reflexivity|].
  apply search_intro; try assumption. now apply first_END_after_fragment.
Qed.

Lemma update_overwrites_previous_fragment_witness :
  ~ occurs END_MARKER (codes "<ul></ul>")
  /\ update_homepage (Sample.disk [] Sample.empty_page) Sample.index_html
       (codes "<ul></ul>")
     = Return (Sample.page (codes "  " ++ START_MARKER ++ [nl] ++ codes "  <ul></ul>"
                            ++ [nl] ++ codes "  " ++ END_MARKER))
  /\ update_homepage
       (write_text (Sample.disk [] Sample.empty_page) Sample.index_html
          (Sample.page (codes "  " ++ START_MARKER ++ [nl] ++ codes "  <ul></ul>"
                        ++ [nl] ++ codes "  " ++ END_MARKER)))
       Sample.index_html (codes "<p></p>")
     = update_homepage (Sample.disk [] Sample.empty_page) Sample.index_html
         (codes "<p></p>").
Proof.
  assert (NO : ~ occurs END_MARKER (codes "<ul></ul>")).
  { apply not_occurs. reflexivity. }
  split; [exact NO|]. split; [vm_compute; reflexivity|].
  apply (update_overwrites_previous_fragment
           (Sample.disk [] Sample.empty_page) Sample.index_html
           (codes "<ul></ul>") (codes "<p></p>")); [exact NO|].
  vm_compute. reflexivity.
Defined.

Section Runs.

Context {rt : Runtime}.

Lemma discover_projects_ext (fs fs' : FileSystem) (root : Path) :
  fs' root = fs root -> discover_projects fs' root = discover_projects fs root.
Proof. unfold discover_projects. now intros ->. Qed.


(** X10. A dry run writes nothing and does not read the index
    document: its outcome is the same on every file system that shows the
    same thing at the projects path, whether the index exists or not. *)
Theorem dry_run_leaves_the_index_alone (fs fs' : FileSystem) (args : Args) :
  dry_run args = true ->
  fs' (projects args) = fs (projects args) ->
  written (main fs args) = []
  /\ main fs' args = main fs args.
Proof.
  intros D E. unfold main. rewrite (discover_projects_ext fs fs' _ E), D.
  destruct (discover_projects fs (projects args)) as [ps|msg|e]; [|now split..].
  destruct (build_navigation_markup ps); now split.
Qed.



End Runs.

Lemma dry_run_leaves_the_index_alone_witness :
  written (main (rt := Sample.runtime)
             (Sample.disk Sample.three_projects Sample.empty_page) (Sample.args true))
  = []
  /\ main (rt := Sample.runtime)
       (fun p => if path_eqb p Sample.projects_root
                 then Some (Dir Sample.three_projects) else None)
       (Sample.args true)
     = main (rt := Sample.runtime)
         (Sample.disk Sample.three_projects Sample.empty_page) (Sample.args true).
Proof.
  apply (dry_run_leaves_the_index_alone (rt := Sample.runtime)
           (Sample.disk Sample.three_projects Sample.empty_page)
           (fun p => if path_eqb p Sample.projects_root
                     then Some (Dir Sample.three_projects) else None)
           (Sample.args true)); reflexivity.
Defined.


(* ================================================================== *)
(** ** Further properties: discovery *)

Lemma str_leb_antisym (a b : str) :
  str_leb a b = true -> str_leb b a = true -> a = b.
Proof.
  revert b; induction a as [|x a IH]; intros [|y b]; simpl; try discriminate;
    [reflexivity|].
  intros H1 H2. apply orb_true_iff in H1, H2.
  destruct H1 as [L1|E1], H2 as [L2|E2]; bool_to_prop; try lia.
  subst. f_equal. now apply IH.
Qed.

(** Two sorted listings of the same entries, no name twice, are the same
    listing. *)
Lemma sorted_listing_unique (l1 l2 : list (str * node)) :
  StronglySorted entry_le l1 -> StronglySorted entry_le l2 ->
  NoDup (map fst l1) -> Permutation l1 l2 -> l1 = l2.
Proof.
  revert l2; induction l1 as [|x l1 IH]; intros l2 S1 S2 N P.
  - apply Permutation_nil in P. now subst.
  - destruct l2 as [|y l2]; [apply Permutation_sym, Permutation_nil in P; discriminate|].
    apply StronglySorted_inv in S1, S2. destruct S1 as [S1 F1], S2 as [S2 F2].
    rewrite Forall_forall in F1, F2.
    assert (E : x = y).
    { assert (Ix : In x (y :: l2)) by (apply (Permutation_in _ P); now left).
      assert (Iy : In y (x :: l1))
        by (apply (Permutation_in _ (Permutation_sym P)); now left).
      destruct Ix as [Ix|Ix]; [now symmetry|].
      destruct Iy as [Iy|Iy]; [assumption|]. exfalso.
      pose proof (F1 y Iy) as L1. pose proof (F2 x Ix) as L2.
      pose proof (str_leb_antisym _ _ L1 L2) as K.
      inversion N as [|? ? NI _]; subst. apply NI. rewrite K. now apply in_map. }
    subst y. f_equal. apply IH; try assumption.
    + now inversion N.
    + now apply Permutation_cons_inv in P.
Qed.

Section FurtherDiscovery.

Context {rt : Runtime}.

Lemma scan_entry_scannable (root : Path) (e : str * node) :
  scannable e = true ->
  scan_entry root e = Return (match metadata_of e with
                              | Some md => Some (project_for root (fst e, md))
                              | None => None
                              end).
Proof.
  unfold scannable, scan_entry, metadata_of, project_for.
  destruct (snd e) as [text|listing]; [reflexivity|].
  destruct (lookup METADATA_FILE listing) as [[text|sub]|]; try discriminate;
    [|reflexivity].
  cbn [read_text bind fst snd].
  destruct (json_loads text) as [[| | | | | |md]|d]; try discriminate. reflexivity.
Qed.

Lemma scan_entry_not_scannable (root : Path) (e : str * node) :
  scannable e = false -> fatal (scan_entry root e) = true.
Proof.
  unfold scannable, scan_entry.
  destruct (snd e) as [text|listing]; [discriminate|].
  destruct (lookup METADATA_FILE listing) as [[text|sub]|]; try discriminate;
    [|reflexivity].
  cbn [read_text bind].
  destruct (json_loads text) as [[| | | | | |md]|d]; try discriminate; reflexivity.
Qed.

Lemma discover_loop_scannable (root : Path) (es : list (str * node))
      (found : list Project) :
  forallb scannable es = true ->
  discover_loop root es found
  = Return (found ++ map (project_for root) (with_metadata es)).
Proof.
  revert found; induction es as [|e es IH]; intros found H.
  - cbn. now rewrite app_nil_r.
  - cbn [forallb] in H. apply andb_true_iff in H. destruct H as [He H].
    cbn [discover_loop]. rewrite (scan_entry_scannable root e He). cbn [bind].
    unfold with_metadata. cbn [flat_map]. fold (with_metadata es).
    destruct (metadata_of e) as [md|].
    + rewrite (IH _ H). cbn [app map]. now rewrite <- app_assoc.
    + now rewrite (IH _ H).
Qed.

Lemma discover_loop_not_scannable (root : Path) (es : list (str * node))
      (found : list Project) :
  forallb scannable es = false -> fatal (discover_loop root es found) = true.
Proof.
  revert found; induction es as [|e es IH]; intros found H; [discriminate|].
  cbn [forallb] in H. cbn [discover_loop].
  destruct (scannable e) eqn:He.
  - rewrite (scan_entry_scannable root e He). cbn [bind].
    destruct (metadata_of e); now apply IH.
  - pose proof (scan_entry_not_scannable root e He) as F.
    destruct (scan_entry root e); [discriminate|reflexivity..].
Qed.

Lemma forallb_perm {A} (f : A -> bool) (l1 l2 : list A) :
  Permutation l1 l2 -> forallb f l1 = forallb f l2.
Proof.
  induction 1 as [|x l1 l2 _ IH|x y l|l1 l2 l3 _ IH1 _ IH2]; cbn [forallb].
  - reflexivity.
  - now rewrite IH.
  - now rewrite !andb_assoc, (andb_comm (f y)).
  - now rewrite IH1.
Qed.

(** X13. Discovery over a directory returns exactly when every entry
    can be passed: each is a plain file, a directory without metadata file,
    or a directory whose metadata file decodes to an object.  It then returns
    the projects of the directories with a metadata object in sorted order;
    with one entry of another kind it ends abnormally, whatever else the
    directory holds.  A projects path that leads to a file raises. *)
Theorem discovery_returns_exactly_when (fs : FileSystem) (root : Path) :
  match fs root with
  | None => discover_projects fs root = Return []
  | Some (File _) => discover_projects fs root = Raise NotADirectoryError
  | Some (Dir entries) =>
      (forallb scannable entries = true ->
       discover_projects fs root
       = Return (map (project_for root) (with_metadata (sorted entries))))
      /\ (forallb scannable entries = false ->
          fatal (discover_projects fs root) = true)
  end.
Proof.
  unfold discover_projects. destruct (fs root) as [[text|entries]|]; try reflexivity.
  pose proof (forallb_perm scannable _ _ (sorted_perm entries)) as P.
  split; intros H; rewrite P in H.
  - now rewrite (discover_loop_scannable root _ [] H).
  - now apply discover_loop_not_scannable.
Qed.

(** X14. Discovery does not depend on the order in which the directory
    is listed: two listings of the same entries, no name twice (as in a
    directory), give the same outcome, projects or failure alike. *)
Theorem discovery_ignores_listing_order
  (fs fs' : FileSystem) (root : Path) (entries entries' : list (str * node)) :
  fs root = Some (Dir entries) ->
  fs' root = Some (Dir entries') ->
  NoDup (map fst entries) ->
  Permutation entries entries' ->
  discover_projects fs' root = discover_projects fs root.
Proof.
  intros R R' N P. unfold discover_projects. rewrite R, R'.
  f_equal. symmetry. apply sorted_listing_unique; try apply sorted_strongly.
  - eapply Permutation_NoDup; [|exact N]. apply Permutation_map, sorted_perm.
  - rewrite <- (sorted_perm entries), <- (sorted_perm entries'). exact P.
Qed.

End FurtherDiscovery.

Lemma discovery_ignores_listing_order_witness :
  Sample.disk Sample.three_projects Sample.empty_page Sample.projects_root
  = Some (Dir Sample.three_projects)
  /\ Sample.disk (rev Sample.three_projects) Sample.empty_page Sample.projects_root
     = Some (Dir (rev Sample.three_projects))
  /\ NoDup (map fst Sample.three_projects)
  /\ Permutation Sample.three_projects (rev Sample.three_projects)
  /\ discover_projects (rt := Sample.runtime)
       (Sample.disk (rev Sample.three_projects) Sample.empty_page) Sample.projects_root
     = discover_projects (rt := Sample.runtime)
         (Sample.disk Sample.three_projects Sample.empty_page) Sample.projects_root.
Proof.
  assert (N : NoDup (map fst Sample.three_projects)).
  { repeat constructor; cbn; intros H;
      repeat (destruct H as [H|H]; [discriminate H|]); exact H. }
  pose proof (Permutation_rev Sample.three_projects) as P.
  split; [reflexivity|]. split; [reflexivity|]. split; [exact N|]. split; [exact P|].
  apply (discovery_ignores_listing_order (rt := Sample.runtime)
           (Sample.disk Sample.three_projects Sample.empty_page)
           (Sample.disk (rev Sample.three_projects) Sample.empty_page)
           Sample.projects_root Sample.three_projects (rev Sample.three_projects));
    [reflexivity|reflexivity|exact N|exact P].
Defined.

(* ================================================================== *)
(** ** Further properties: escaping loses nothing *)

Lemma entity_cases (c : char) :
  (c = 38 /\ Html.entity c = codes "&amp;")
  \/ (c = 60 /\ Html.entity c = codes "&lt;")
  \/ (c = 62 /\ Html.entity c = codes "&gt;")
  \/ (c = dq /\ Html.entity c = codes "&quot;")
  \/ (c = 39 /\ Html.entity c = codes "&#x27;")
  \/ (c <> 38 /\ Html.entity c = [c]).
Proof.
  unfold Html.entity.
  destruct (N.eqb_spec c 38) as [->|N1]; [now left|].
  destruct (N.eqb_spec c 60) as [->|N2]; [right; now left|].
  destruct (N.eqb_spec c 62) as [->|N3]; [right; right; now left|].
  destruct (N.eqb_spec c dq) as [->|N4]; [right; right; right; now left|].
  destruct (N.eqb_spec c 39) as [->|N5]; [right; right; right; right; now left|].
  right; right; right; right; right. now split.
Qed.

Lemma entity_head (c d : char) (x y : str) :
  Html.entity c ++ x = Html.entity d ++ y -> c = d /\ x = y.
Proof.
  destruct (entity_cases c)
    as [ [-> ->] | [ [-> ->] | [ [-> ->] | [ [-> ->] | [ [-> ->] | [Nc ->] ] ] ] ] ];
  destruct (entity_cases d)
    as [ [-> ->] | [ [-> ->] | [ [-> ->] | [ [-> ->] | [ [-> ->] | [Nd ->] ] ] ] ] ];
  cbn; intros H; try discriminate H;
    try (injection H as H; now split);
    try (injection H as H1 H2; congruence).
Qed.

Lemma entities_injective (s t : str) : Html.entities s = Html.entities t -> s = t.
Proof.
  revert t; induction s as [|c s IH]; intros [|d t] H.
  - reflexivity.
  - exfalso. change (Html.entities (d :: t)) with (Html.entity d ++ Html.entities t) in H.
    destruct (entity_cases d)
      as [ [_ E] | [ [_ E] | [ [_ E] | [ [_ E] | [ [_ E] | [_ E] ] ] ] ] ];
      rewrite E in H; discriminate H.
  - exfalso. change (Html.entities (c :: s)) with (Html.entity c ++ Html.entities s) in H.
    destruct (entity_cases c)
      as [ [_ E] | [ [_ E] | [ [_ E] | [ [_ E] | [ [_ E] | [_ E] ] ] ] ] ];
      rewrite E in H; discriminate H.
  - change (Html.entity c ++ Html.entities s = Html.entity d ++ Html.entities t) in H.
    apply entity_head in H. destruct H as [-> H]. f_equal. now apply IH.
Qed.

(** X15. Escaping loses nothing: two texts with the same escaped form
    are the same text, so different names, urls or descriptions never show
    as the same escaped value. *)
Theorem escape_is_injective (s t : str) :
  escape_value (JStr s) = escape_value (JStr t) -> s = t.
Proof.
  cbn [escape_value]. intros H. injection H as H.
  rewrite !escape_entities in H. now apply entities_injective.
Qed.

Lemma escape_is_injective_witness :
  escape_value (JStr (codes "a<b")) = Return (codes "a&lt;b")
  /\ codes "a<b" = codes "a<b".
Proof.
  split; [reflexivity|].
  apply (escape_is_injective (codes "a<b") (codes "a<b")). reflexivity.
Defined.

Lemma split_at_first (c : char) (a a' r r' : str) :
  ~ In c a -> ~ In c a' -> a ++ c :: r = a' ++ c :: r' -> a = a' /\ r = r'.
Proof.
  revert a'; induction a as [|x a IH]; intros [|y a'] Na Na' H; cbn [app] in H.
  - injection H as ->. now split.
  - injection H as -> _. exfalso. apply Na'. now left.
  - injection H as -> _. exfalso. apply Na. now left.
  - injection H as -> H.
    destruct (IH a') as [-> ->]; try assumption.
    + intros I; apply Na; now right.
    + intros I; apply Na'; now right.
    + now split.
Qed.

Lemma entities_no (c : char) (s : str) :
  c = 60 \/ c = dq -> ~ In c (Html.entities s).
Proof.
  intros H I. apply entities_clean in I. destruct I as (N1 & _ & N3 & _).
  destruct H; congruence.
Qed.

Lemma anchor_tail_injective (n n' : str) (x x' : str) :
  codes ">" ++ Html.entities n ++ codes "</a>" ++ x
  = codes ">" ++ Html.entities n' ++ codes "</a>" ++ x' ->
  n = n' /\ x = x'.
Proof.
  intros H. apply app_inv_head in H.
  change (codes "</a>") with (60 :: codes "/a>") in H. cbn [app] in H.
  apply split_at_first in H; try (apply entities_no; now left).
  destruct H as [E1 E2]. apply app_inv_head in E2.
  split; [now apply entities_injective|assumption].
Qed.

(** X16. The rendering of an item loses nothing either: two projects
    whose fields hold no line terminator and whose items are the same text
    have the same name and the same url, and the same description as far as
    one is shown (an empty description is rendered like a missing one). *)
Theorem nav_item_is_injective (n u n' u' : str) (d d' : option str) :
  single_line (n, u, d) = true ->
  single_line (n', u', d') = true ->
  nav_item (typed_project n u d) = nav_item (typed_project n' u' d') ->
  n = n' /\ u = u' /\ shown d = shown d'.
Proof.
  intros S S' H. rewrite (nav_item_exact n u d S), (nav_item_exact n' u' d' S') in H.
  assert (E : exact_item_text (n, u, d) = exact_item_text (n', u', d'))
    by congruence.
  clear H; rename E into H. unfold exact_item_text, anchor_html in H.
  rewrite <- !app_assoc in H.
  do 5 apply app_inv_head in H. cbn [app] in H.
  apply split_at_first in H; try (apply entities_no; now right).
  destruct H as [Eu H]. apply entities_injective in Eu.
  split; [|split; [exact Eu|]].
  - destruct d as [[|c t]|], d' as [[|c' t']|]; cbn [title_html] in H;
      rewrite <- ?app_assoc in H;
      try (apply anchor_tail_injective in H; now destruct H);
      try (apply (f_equal (@hd N 0)) in H; vm_compute in H; discriminate H).
    do 2 apply app_inv_head in H. cbn [app] in H.
    apply split_at_first in H; try (apply entities_no; now right).
    destruct H as [_ H]. apply anchor_tail_injective in H. now destruct H.
  - destruct d as [[|c t]|], d' as [[|c' t']|]; cbn [title_html shown] in *;
      rewrite <- ?app_assoc in H; try reflexivity;
      try (apply (f_equal (@hd N 0)) in H; vm_compute in H; discriminate H).
    do 2 apply app_inv_head in H. cbn [app] in H.
    apply split_at_first in H; try (apply entities_no; now right).
    destruct H as [Ed _]. apply entities_injective in Ed. now rewrite Ed.
Qed.

Lemma nav_item_is_injective_witness :
  single_line (codes "A", codes "a/", None) = true
  /\ single_line (codes "A", codes "a/", Some []) = true
  /\ nav_item (typed_project (codes "A") (codes "a/") None)
     = nav_item (typed_project (codes "A") (codes "a/") (Some []))
  /\ codes "A" = codes "A" /\ codes "a/" = codes "a/"
  /\ shown None = shown (Some []).
Proof.
  split; [reflexivity|]. split; [reflexivity|]. split; [vm_compute; reflexivity|].
  apply (nav_item_is_injective (codes "A") (codes "a/") (codes "A") (codes "a/")
           None (Some [])); [reflexivity|reflexivity|vm_compute; reflexivity].
Defined.

(* ================================================================== *)
(** ** Further properties: the diagnostics of a run *)


Section Diagnostics.

Context {rt : Runtime}.



End Diagnostics.


